(** * SHM: circular motion and its simple-harmonic projection

    A shallow embedding of the two scripts [SHM.py] and [SHMstreamlit.py]:
    the precomputed kinematics arrays (the "sampler") and the per-frame
    [update] callback of the animation.

    Numbers.  The scripts compute with numpy [float64].  Here a float is
    idealised as a real number, so every equation below is an equation of
    real arithmetic; this is the reading under which the closed forms
    [x = R cos(wt)], [x^2 + y^2 = R^2], ... are meant.  Rounding is not
    modelled. *)

From Stdlib Require Import Reals List ZArith Lia Lra Psatz.
Import ListNotations.

Open Scope R_scope.

(** The type of array elements and of the scalar parameters.  The name [R]
    is thereby left free for the radius, as in the source. *)
Abbreviation float := Rdefinitions.R (only parsing).

(** ** Exceptions and results *)

Inductive exn : Set :=
| ValueError
| IndexError
| OverflowError.

Inductive result (A : Type) : Type :=
| Ok (a : A)
| Raise (e : exn).

Arguments Ok {A} a.
Arguments Raise {A} e.

Definition bind {A B : Type} (m : result A) (k : A -> result B) : result B :=
  match m with
  | Ok a => k a
  | Raise e => Raise e
  end.

Notation "x <-? m ;; k" := (bind m (fun x => k))
  (at level 61, m at next level, right associativity).

(** ** The range of Python floats

    Rounding is not modelled, the range of a float is where it decides
    between a value and an exception: Python's [x ** n] on floats raises
    [OverflowError] when the result is too large for a float, that is when
    it would round to infinity.  The other float operations of the scripts
    ([*], [/], unary [-], and all of numpy's) return [inf] or [nan] there
    and raise nothing. *)



(** ** The numpy operations the scripts use *)

Module Np.

Definition ndarray := list float.

(** [np.arange(0, num)] as floats. *)
Definition arange (num : Z) : ndarray :=
  map INR (seq 0 (Z.to_nat num)).

(** [c * a] with a scalar [c]: broadcast multiplication. *)
Definition scal (c : float) (a : ndarray) : ndarray := map (Rmult c) a.

(** [a * c], [a / c] and [a + c] with a scalar [c]. *)
Definition muls (a : ndarray) (c : float) : ndarray :=
  map (fun y => y * c) a.
Definition divs (a : ndarray) (c : float) : ndarray :=
  map (fun y => y / c) a.
Definition adds (a : ndarray) (c : float) : ndarray :=
  map (fun y => y + c) a.

Definition cos (a : ndarray) : ndarray := map Rtrigo_def.cos a.
Definition sin (a : ndarray) : ndarray := map Rtrigo_def.sin a.

Definition zeros_like (a : ndarray) : ndarray := map (fun _ => 0) a.

(** [a.copy()]: a fresh array with the same elements. *)
Definition copy (a : ndarray) : ndarray := a.

(** [y[-1] = stop]: overwrite the last element. *)
Definition set_last (a : ndarray) (v : float) : ndarray :=
  match a with
  | [] => []
  | _ :: _ => removelast a ++ [v]
  end.

(** [np.linspace(start, stop, num)] with the default [endpoint=True]:
    a negative count is a [ValueError]; the step is [delta / (num - 1)];
    a zero step is handled by dividing first; with [num <= 1] the step is
    undefined and the ramp is multiplied by [delta]; finally the last
    element is set to [stop] when [num > 1]. *)
Definition linspace (start stop : float) (num : Z) : result ndarray :=
  if (num <? 0)%Z then Raise ValueError
  else
    let div := (num - 1)%Z in
    let delta := stop - start in
    let y := arange num in
    let y :=
      if (0 <? div)%Z then
        let step := delta / IZR div in
        if Req_dec_T step 0
        then muls (divs y (IZR div)) delta
        else muls y step
      else muls y delta in
    let y := adds y start in
    Ok (if (1 <? num)%Z then set_last y stop else y).

(** numpy's index type is the C type [intp], a signed integer of 64
    bits.  [getitem] below is numpy's behaviour on the indices that fit
    it; a Python integer beyond it fails in the conversion, before any
    bounds check, and is outside this model. *)
Definition fits_intp (i : Z) : Prop := (- 2 ^ 63 <= i < 2 ^ 63)%Z.

(** [a[i]] for an integer [i]: indices [-len .. len-1] are valid, a
    negative one counts from the end, anything else is an [IndexError]. *)
Definition getitem (a : ndarray) (i : Z) : result float :=
  let n := Z.of_nat (length a) in
  if ((i <? - n)%Z || (n <=? i)%Z)%bool then Raise IndexError
  else Ok (nth (Z.to_nat (if (i <? 0)%Z then i + n else i)) a 0).

(** The bound of a slice, clamped the way Python does for a positive
    stride: a negative bound counts from the end, and the result is
    brought into [0 .. len]. *)
Definition clamp (n : Z) (b : Z) : Z :=
  let b := if (b <? 0)%Z then (b + n)%Z else b in
  Z.max 0 (Z.min n b).

(** [a[slice(start, stop)]]: never raises. *)
Definition getslice (a : ndarray) (start stop : Z) : ndarray :=
  let n := Z.of_nat (length a) in
  let lo := clamp n start in
  let hi := clamp n stop in
  firstn (Z.to_nat (hi - lo)) (skipn (Z.to_nat lo) a).

End Np.

(** ** The trajectory sample set *)

(** The eight module-level arrays of either script. *)
Record SampleSet : Type := mkSampleSet {
  t_full : Np.ndarray;
  x_full : Np.ndarray;
  y_full : Np.ndarray;
  z_full : Np.ndarray;
  d_full : Np.ndarray;
  v_full : Np.ndarray;
  a_full : Np.ndarray;
  F_full : Np.ndarray
}.

(** One frame: the eight arrays read at one index. *)
Record Frame : Type := mkFrame {
  ft : float; fx : float; fy : float; fz : float;
  fd : float; fv : float; fa : float; fF : float
}.

Definition frame (s : SampleSet) (i : Z) : result Frame :=
  t <-? Np.getitem (t_full s) i ;;
  x <-? Np.getitem (x_full s) i ;;
  y <-? Np.getitem (y_full s) i ;;
  z <-? Np.getitem (z_full s) i ;;
  d <-? Np.getitem (d_full s) i ;;
  v <-? Np.getitem (v_full s) i ;;
  a <-? Np.getitem (a_full s) i ;;
  F <-? Np.getitem (F_full s) i ;;
  Ok (mkFrame t x y z d v a F).

(** ** The plot artists

    The figure, the axes and their styling are the plotting library's; what
    [update] writes is the data of seven line artists and the arrow of the
    force vector.  An artist stores the values it is handed and writes to
    none of them. *)

(** A line of the 3D axes: [set_data(xs, ys)] and [set_3d_properties(zs)]. *)
Record Line3D : Type := mkLine3D {
  xs3 : list float;
  ys3 : list float;
  zs3 : list float
}.

(** A line of a time-series axes: [set_data(xs, ys)]. *)
Record Line2D : Type := mkLine2D {
  xdata : list float;
  ydata : list float
}.

(** The arrow drawn by [ax3d.quiver(x, y, z, u, v, w)]. *)
Record Quiver : Type := mkQuiver {
  qx : float; qy : float; qz : float;
  qu : float; qv : float; qw : float
}.

Definition set_data3 (l : Line3D) (xs ys : list float) : Line3D :=
  mkLine3D xs ys (zs3 l).

Definition set_3d_properties (l : Line3D) (zs : list float) : Line3D :=
  mkLine3D (xs3 l) (ys3 l) zs.

Definition set_data (l : Line2D) (xs ys : list float) : Line2D :=
  mkLine2D xs ys.

Definition Quiver_eq_dec (p q : Quiver) : {p = q} + {p <> q}.
Proof. decide equality; apply Req_dec_T. Defined.

(** The module globals [update] can reach: the eight arrays, the arrows
    that are at present drawn on the 3D axes, and the artists.
    [force_quiver] is [None] until the first frame is drawn. *)
Record World : Type := mkWorld {
  arrays : SampleSet;
  ax3d_quivers : list Quiver;
  point_3d : Line3D;
  line_center_to_point : Line3D;
  proj_line : Line3D;
  force_quiver : option Quiver;
  line_f : Line2D;
  line_d : Line2D;
  line_v : Line2D;
  line_a : Line2D
}.

(** ** Statements that read and write the globals

    A statement runs in a world and leaves a world, also when it raises:
    what was written before the exception stays written. *)

Definition M (A : Type) : Type := World -> result A * World.

Definition ret {A : Type} (a : A) : M A := fun w => (Ok a, w).

Definition bindM {A B : Type} (m : M A) (k : A -> M B) : M B :=
  fun w =>
    match m w with
    | (Ok a, w') => k a w'
    | (Raise e, w') => (Raise e, w')
    end.

Notation "x <- m ;; k" := (bindM m (fun x => k))
  (at level 61, m at next level, right associativity).
Notation "m ;;; k" := (bindM m (fun _ => k))
  (at level 61, right associativity).

(** [a[i]] on one of the global arrays. *)
Definition index (a : SampleSet -> Np.ndarray) (i : Z) : M float :=
  fun w => (Np.getitem (a (arrays w)) i, w).

(** [a[slice(lo, hi)]] on one of the global arrays. *)
Definition slice (a : SampleSet -> Np.ndarray) (lo hi : Z) : M (list float) :=
  fun w => (Ok (Np.getslice (a (arrays w)) lo hi), w).

Definition on_point_3d (f : Line3D -> Line3D) : M unit :=
  fun w => (Ok tt,
    mkWorld (arrays w) (ax3d_quivers w)
            (f (point_3d w)) (line_center_to_point w) (proj_line w)
            (force_quiver w) (line_f w) (line_d w) (line_v w) (line_a w)).

Definition on_line_center_to_point (f : Line3D -> Line3D) : M unit :=
  fun w => (Ok tt,
    mkWorld (arrays w) (ax3d_quivers w)
            (point_3d w) (f (line_center_to_point w)) (proj_line w)
            (force_quiver w) (line_f w) (line_d w) (line_v w) (line_a w)).

Definition on_proj_line (f : Line3D -> Line3D) : M unit :=
  fun w => (Ok tt,
    mkWorld (arrays w) (ax3d_quivers w)
            (point_3d w) (line_center_to_point w) (f (proj_line w))
            (force_quiver w) (line_f w) (line_d w) (line_v w) (line_a w)).

(** Reading and assigning the global [force_quiver]. *)
Definition get_force_quiver : M (option Quiver) :=
  fun w => (Ok (force_quiver w), w).

Definition set_force_quiver (q : option Quiver) : M unit :=
  fun w => (Ok tt,
    mkWorld (arrays w) (ax3d_quivers w)
            (point_3d w) (line_center_to_point w) (proj_line w)
            q (line_f w) (line_d w) (line_v w) (line_a w)).

(** [q.remove()]: the arrow is taken off the axes. *)
Definition quiver_remove (q : Quiver) : M unit :=
  fun w => (Ok tt,
    mkWorld (arrays w) (remove Quiver_eq_dec q (ax3d_quivers w))
            (point_3d w) (line_center_to_point w) (proj_line w)
            (force_quiver w) (line_f w) (line_d w) (line_v w) (line_a w)).

(** [ax3d.quiver(x, y, z, u, v, w)]: a new arrow is put on the axes and
    returned. *)
Definition ax3d_quiver (x y z u v w : float) : M Quiver :=
  fun wd => (Ok (mkQuiver x y z u v w),
    mkWorld (arrays wd) (mkQuiver x y z u v w :: ax3d_quivers wd)
            (point_3d wd) (line_center_to_point wd) (proj_line wd)
            (force_quiver wd) (line_f wd) (line_d wd) (line_v wd) (line_a wd)).

Definition on_line_f (f : Line2D -> Line2D) : M unit :=
  fun w => (Ok tt,
    mkWorld (arrays w) (ax3d_quivers w)
            (point_3d w) (line_center_to_point w) (proj_line w)
            (force_quiver w) (f (line_f w)) (line_d w) (line_v w) (line_a w)).

Definition on_line_d (f : Line2D -> Line2D) : M unit :=
  fun w => (Ok tt,
    mkWorld (arrays w) (ax3d_quivers w)
            (point_3d w) (line_center_to_point w) (proj_line w)
            (force_quiver w) (line_f w) (f (line_d w)) (line_v w) (line_a w)).

Definition on_line_v (f : Line2D -> Line2D) : M unit :=
  fun w => (Ok tt,
    mkWorld (arrays w) (ax3d_quivers w)
            (point_3d w) (line_center_to_point w) (proj_line w)
            (force_quiver w) (line_f w) (line_d w) (f (line_v w)) (line_a w)).

Definition on_line_a (f : Line2D -> Line2D) : M unit :=
  fun w => (Ok tt,
    mkWorld (arrays w) (ax3d_quivers w)
            (point_3d w) (line_center_to_point w) (proj_line w)
            (force_quiver w) (line_f w) (line_d w) (line_v w) (f (line_a w))).

(** [range(n)]. *)
Definition range (n : Z) : list Z := map Z.of_nat (seq 0 (Z.to_nat n)).

(** The world right after the "initial plots" block: every dynamic line
    is empty and no arrow has been drawn. *)
Definition initial_world (s : SampleSet) : World :=
  mkWorld s [] (mkLine3D [] [] []) (mkLine3D [] [] []) (mkLine3D [] [] [])
          None (mkLine2D [] []) (mkLine2D [] []) (mkLine2D [] [])
          (mkLine2D [] []).

(** ** SHM.py *)

Module SHM.

Section Script.

(** The scalar parameters, module-level constants in the script. *)
Variables (R omega t_max : float) (n_frames : Z).

(** Lines 19-30, given the time array of line 16. *)
Definition arrays_of (t_full : Np.ndarray) : SampleSet :=
  let x_full := Np.scal R (Np.cos (Np.scal omega t_full)) in
  let y_full := Np.scal R (Np.sin (Np.scal omega t_full)) in
  let z_full := Np.zeros_like t_full in
  let d_full := Np.copy x_full in
  let v_full := Np.scal (- R * omega) (Np.sin (Np.scal omega t_full)) in
  let a_full := Np.scal (- R * omega ^ 2) (Np.cos (Np.scal omega t_full)) in
  let F_full := Np.copy a_full in
  mkSampleSet t_full x_full y_full z_full d_full v_full a_full F_full.

(** Lines 16-30: the precomputation of the eight arrays. *)
Definition sampler : result SampleSet :=
  t_full <-? Np.linspace 0 t_max n_frames ;;
  Ok (arrays_of t_full).


(** Lines 45-48: the limits of the three axes of the 3D panel. *)
Definition lim : float := R * 1.2.
Definition ax3d_xlim : float * float := (- lim, lim).
Definition ax3d_ylim : float * float := (- lim, lim).
Definition ax3d_zlim : float * float := (- lim, lim).

(** Lines 59-61: force against time. *)
Definition ax_f_xlim : float * float := (0, t_max).
Definition force_lim : float := R * omega ^ 2 * 1.2.
Definition ax_f_ylim : float * float := (- force_lim, force_lim).

(** Lines 66-67: displacement against time. *)
Definition ax_d_xlim : float * float := (0, t_max).
Definition ax_d_ylim : float * float := (- lim, lim).

(** Lines 72-74: velocity against time. *)
Definition ax_v_xlim : float * float := (0, t_max).
Definition vel_lim : float := Rabs (R * omega) * 1.2.
Definition ax_v_ylim : float * float := (- vel_lim, vel_lim).

(** Lines 79-80: acceleration against time. *)
Definition ax_a_xlim : float * float := (0, t_max).
Definition ax_a_ylim : float * float := (- force_lim, force_lim).

(** Line 156: the delay between two drawn frames, in milliseconds. *)
Variable fps : Z.
Definition interval : float := 1000 / IZR fps.

(** Lines 106-151: the animation callback. *)
Definition update (frame : Z) : M unit :=
  t <- index t_full frame ;;
  x <- index x_full frame ;;
  y <- index y_full frame ;;
  z <- index z_full frame ;;
  d <- index d_full frame ;;
  v <- index v_full frame ;;
  a <- index a_full frame ;;
  on_point_3d (fun l => set_data3 l [x] [y]) ;;;
  on_point_3d (fun l => set_3d_properties l [z]) ;;;
  on_line_center_to_point (fun l => set_data3 l [0; x] [0; y]) ;;;
  on_line_center_to_point (fun l => set_3d_properties l [0; z]) ;;;
  on_proj_line (fun l => set_data3 l [x; x] [0; 0]) ;;;
  on_proj_line (fun l => set_3d_properties l [0; z]) ;;;
  old <- get_force_quiver ;;
  match old with
  | Some q => quiver_remove q
  | None => ret tt
  end ;;;
  let fx := - R * omega ^ 2 * Rtrigo_def.cos (omega * t) in
  let fy := - R * omega ^ 2 * Rtrigo_def.sin (omega * t) in
  let fz := 0 in
  q <- ax3d_quiver x y z fx fy fz ;;
  set_force_quiver (Some q) ;;;
  ts <- slice t_full 0 (frame + 1) ;;
  Fs <- slice F_full 0 (frame + 1) ;;
  on_line_f (fun l => set_data l ts Fs) ;;;
  ts <- slice t_full 0 (frame + 1) ;;
  ds <- slice d_full 0 (frame + 1) ;;
  on_line_d (fun l => set_data l ts ds) ;;;
  ts <- slice t_full 0 (frame + 1) ;;
  vs <- slice v_full 0 (frame + 1) ;;
  on_line_v (fun l => set_data l ts vs) ;;;
  ts <- slice t_full 0 (frame + 1) ;;
  as_ <- slice a_full 0 (frame + 1) ;;
  on_line_a (fun l => set_data l ts as_) ;;;
  ret tt.

(** One pass of [FuncAnimation]: [update] called on each frame in turn. *)
Fixpoint animate (frames : list Z) : M unit :=
  match frames with
  | [] => ret tt
  | frame :: rest => update frame ;;; animate rest
  end.

End Script.

(** Lines 9-13: the constants of the script.  [t_max] and [fps] are
    Python integers, so [int(t_max * fps)] is their product. *)
Definition R : float := 1.
Definition omega : float := 2 * PI / 5.
Definition t_max : Z := 10.
Definition fps : Z := 30.
Definition n_frames : Z := (t_max * fps)%Z.

(** The script's run up to the animation: the arrays, or the exception. *)
Definition startup : result SampleSet :=
  sampler R omega (IZR t_max) n_frames.

End SHM.

(** ** SHMstreamlit.py *)

Module SHMstreamlit.

Section Script.

Variables (R omega t_max : float) (n_frames : Z).

(** Lines 20-28, given the time array of line 17. *)
Definition arrays_of (t_full : Np.ndarray) : SampleSet :=
  let x_full := Np.scal R (Np.cos (Np.scal omega t_full)) in
  let y_full := Np.scal R (Np.sin (Np.scal omega t_full)) in
  let z_full := Np.zeros_like t_full in
  let d_full := Np.copy x_full in
  let v_full := Np.scal (- R * omega) (Np.sin (Np.scal omega t_full)) in
  let a_full := Np.scal (- R * omega ^ 2) (Np.cos (Np.scal omega t_full)) in
  let F_full := Np.copy a_full in
  mkSampleSet t_full x_full y_full z_full d_full v_full a_full F_full.

(** Lines 17-28. *)
Definition sampler : result SampleSet :=
  t_full <-? Np.linspace 0 t_max n_frames ;;
  Ok (arrays_of t_full).

(** Lines 96-132: the animation callback. *)
Definition update (frame : Z) : M unit :=
  t <- index t_full frame ;;
  x <- index x_full frame ;;
  y <- index y_full frame ;;
  z <- index z_full frame ;;
  d <- index d_full frame ;;
  v <- index v_full frame ;;
  a <- index a_full frame ;;
  on_point_3d (fun l => set_data3 l [x] [y]) ;;;
  on_point_3d (fun l => set_3d_properties l [z]) ;;;
  on_line_center_to_point (fun l => set_data3 l [0; x] [0; y]) ;;;
  on_line_center_to_point (fun l => set_3d_properties l [0; z]) ;;;
  on_proj_line (fun l => set_data3 l [x; x] [0; 0]) ;;;
  on_proj_line (fun l => set_3d_properties l [0; z]) ;;;
  old <- get_force_quiver ;;
  match old with
  | Some q => quiver_remove q
  | None => ret tt
  end ;;;
  let fx := - R * omega ^ 2 * Rtrigo_def.cos (omega * t) in
  let fy := - R * omega ^ 2 * Rtrigo_def.sin (omega * t) in
  let fz := 0 in
  q <- ax3d_quiver x y z fx fy fz ;;
  set_force_quiver (Some q) ;;;
  ts <- slice t_full 0 (frame + 1) ;;
  Fs <- slice F_full 0 (frame + 1) ;;
  on_line_f (fun l => set_data l ts Fs) ;;;
  ts <- slice t_full 0 (frame + 1) ;;
  ds <- slice d_full 0 (frame + 1) ;;
  on_line_d (fun l => set_data l ts ds) ;;;
  ts <- slice t_full 0 (frame + 1) ;;
  vs <- slice v_full 0 (frame + 1) ;;
  on_line_v (fun l => set_data l ts vs) ;;;
  ts <- slice t_full 0 (frame + 1) ;;
  as_ <- slice a_full 0 (frame + 1) ;;
  on_line_a (fun l => set_data l ts as_) ;;;
  ret tt.

(** Line 134: one pass of [FuncAnimation], as rendered into the video. *)
Fixpoint animate (frames : list Z) : M unit :=
  match frames with
  | [] => ret tt
  | frame :: rest => update frame ;;; animate rest
  end.

End Script.

(** Lines 10-14. *)
Definition R : float := 1.
Definition omega : float := 2 * PI / 5.
Definition t_max : Z := 10.
Definition fps : Z := 30.
Definition n_frames : Z := (t_max * fps)%Z.

Definition startup : result SampleSet :=
  sampler R omega (IZR t_max) n_frames.

End SHMstreamlit.

(** ** Valid and invalid parameters, as the specification names them *)

Definition valid_params (R t_max : float) (N : Z) : Prop :=
  0 < R /\ 0 < t_max /\ (1 < N)%Z.


(** A value lies between the two limits of an axis. *)
Definition within (l : float * float) (v : float) : Prop :=
  fst l <= v <= snd l.

(** The closed forms of the kinematics at a time [t]. *)
Definition closed_form (R omega t : float) : Frame :=
  mkFrame t (R * cos (omega * t)) (R * sin (omega * t)) 0
          (R * cos (omega * t))
          (- R * omega * sin (omega * t))
          (- R * omega ^ 2 * cos (omega * t))
          (- R * omega ^ 2 * cos (omega * t)).

(** The arrows on the 3D axes are the one [force_quiver] points at, or
    none before the first frame. *)
Definition one_arrow (w : World) : Prop :=
  ax3d_quivers w = match force_quiver w with
                   | Some q => [q]
                   | None => []
                   end.

(** A statement that leaves the eight arrays as it found them, whether it
    returns or raises. *)
Definition reads_only {A : Type} (m : M A) : Prop :=
  forall w, arrays (snd (m w)) = arrays w.

(** * Properties *)

(** ** Lists and arrays *)

Lemma nth_map_in (A B : Type) (f : A -> B) (l : list A) (i : nat) (d : B) (d' : A) :
  (i < length l)%nat -> nth i (map f l) d = f (nth i l d').
Proof.
  intros Hi. rewrite (nth_indep _ d (f d')) by (now rewrite length_map).
  apply map_nth.
Qed.

Lemma set_last_length (a : Np.ndarray) (v : float) :
  length (Np.set_last a v) = length a.
Proof.
  destruct a as [|x a]; [reflexivity|].
  unfold Np.set_last. rewrite length_app. simpl length at 2.
  assert (H : x :: a <> []) by discriminate.
  destruct (exists_last H) as (l & y & ->).
  rewrite removelast_last, length_app. reflexivity.
Qed.

Lemma set_last_nth_front (a : Np.ndarray) (v d : float) (i : nat) :
  (S i < length a)%nat -> nth i (Np.set_last a v) d = nth i a d.
Proof.
  intros Hi. destruct a as [|x a]; [reflexivity|].
  unfold Np.set_last.
  assert (H : x :: a <> []) by discriminate.
  destruct (exists_last H) as (l & y & E). rewrite E in *.
  rewrite removelast_last. rewrite length_app in Hi. simpl in Hi.
  rewrite !app_nth1 by lia. reflexivity.
Qed.

Lemma set_last_nth_last (a : Np.ndarray) (v d : float) :
  a <> [] -> nth (length a - 1) (Np.set_last a v) d = v.
Proof.
  intros H. destruct a as [|x a]; [congruence|].
  unfold Np.set_last.
  destruct (exists_last H) as (l & y & E). rewrite E.
  rewrite removelast_last, length_app. simpl length.
  replace (length l + 1 - 1)%nat with (length l) by lia.
  rewrite app_nth2 by lia. now rewrite Nat.sub_diag.
Qed.

Lemma arange_length (num : Z) : length (Np.arange num) = Z.to_nat num.
Proof. unfold Np.arange. now rewrite length_map, length_seq. Qed.

Lemma arange_nth (num : Z) (i : nat) (d : float) :
  (i < Z.to_nat num)%nat -> nth i (Np.arange num) d = INR i.
Proof.
  intros Hi. unfold Np.arange.
  rewrite (nth_map_in _ _ INR _ i d 0%nat) by (now rewrite length_seq).
  now rewrite seq_nth.
Qed.

(** ** linspace *)

Lemma linspace_neg (start stop : float) (num : Z) :
  (num < 0)%Z -> Np.linspace start stop num = Raise ValueError.
Proof.
  intros H. unfold Np.linspace.
  now destruct (Z.ltb_spec num 0); [|lia].
Qed.

Lemma linspace_total (start stop : float) (num : Z) :
  (0 <= num)%Z -> exists l, Np.linspace start stop num = Ok l.
Proof.
  intros H. unfold Np.linspace.
  destruct (Z.ltb_spec num 0); [lia|]. eauto.
Qed.

Lemma linspace_length (start stop : float) (num : Z) (l : Np.ndarray) :
  Np.linspace start stop num = Ok l -> length l = Z.to_nat num.
Proof.
  unfold Np.linspace.
  destruct (num <? 0)%Z; [discriminate|].
  intros [= <-].
  assert (E : forall y, length y = Z.to_nat num ->
              length (if (1 <? num)%Z
                      then Np.set_last (Np.adds y start) stop
                      else Np.adds y start) = Z.to_nat num).
  { intros y Hy. destruct (1 <? num)%Z;
      [rewrite set_last_length|]; unfold Np.adds; now rewrite length_map. }
  apply E.
  destruct (0 <? num - 1)%Z; [destruct (Req_dec_T _ _)|];
    unfold Np.muls, Np.divs; rewrite ?length_map; apply arange_length.
Qed.

(** The time grid: frame [i] of [num > 1] frames is at
    [start + i * (stop - start) / (num - 1)]. *)
Lemma linspace_nth (start stop : float) (num : Z) (l : Np.ndarray) (i : nat) :
  Np.linspace start stop num = Ok l ->
  (1 < num)%Z -> (i < Z.to_nat num)%nat ->
  nth i l 0 = start + INR i * ((stop - start) / IZR (num - 1)).
Proof.
  intros Hl Hnum Hi.
  assert (Hdiv : IZR (num - 1) <> 0) by (apply not_0_IZR; lia).
  pose proof Hl as Hlen. apply linspace_length in Hlen.
  unfold Np.linspace in Hl.
  destruct (Z.ltb_spec num 0); [lia|].
  destruct (Z.ltb_spec 0 (num - 1)); [|lia].
  destruct (Z.ltb_spec 1 num); [|lia].
  injection Hl as <-.
  rewrite set_last_length in Hlen.
  set (y := Np.adds _ start) in *.
  assert (Hy : forall k, (k < Z.to_nat num)%nat ->
             nth k y 0 = start + INR k * ((stop - start) / IZR (num - 1))).
  { intros k Hk. subst y. unfold Np.adds in *. rewrite length_map in Hlen.
    rewrite (nth_map_in _ _ _ _ k 0 0) by lia.
    destruct (Req_dec_T _ _) as [E|E]; unfold Np.muls, Np.divs in *;
      rewrite ?length_map in Hlen.
    - rewrite (nth_map_in _ _ _ _ k 0 0) by (rewrite length_map; lia).
      rewrite (nth_map_in _ _ _ _ k 0 0) by lia.
      rewrite arange_nth by lia. field. exact Hdiv.
    - rewrite (nth_map_in _ _ _ _ k 0 0) by lia.
      rewrite arange_nth by lia. ring. }
  destruct (Nat.eq_dec (S i) (Z.to_nat num)) as [Hlast|Hfront].
  - replace i with (length y - 1)%nat by lia.
    rewrite set_last_nth_last by (intros ->; simpl in Hlen; lia).
    replace (length y - 1)%nat with (Z.to_nat (num - 1)) by lia.
    rewrite INR_IZR_INZ, Z2Nat.id by lia. field. exact Hdiv.
  - rewrite set_last_nth_front by lia. apply Hy, Hi.
Qed.

(** ** Indexing and slicing *)

Lemma getitem_in (a : Np.ndarray) (i : Z) :
  (0 <= i < Z.of_nat (length a))%Z ->
  Np.getitem a i = Ok (nth (Z.to_nat i) a 0).
Proof.
  intros Hi. unfold Np.getitem.
  destruct (Z.ltb_spec i (- Z.of_nat (length a))); [lia|].
  destruct (Z.leb_spec (Z.of_nat (length a)) i); [lia|].
  destruct (Z.ltb_spec i 0); [lia|]. reflexivity.
Qed.

Lemma getitem_out (a : Np.ndarray) (i : Z) :
  (Z.of_nat (length a) <= i)%Z -> Np.getitem a i = Raise IndexError.
Proof.
  intros Hi. unfold Np.getitem.
  destruct (Z.leb_spec (Z.of_nat (length a)) i); [|lia].
  now rewrite Bool.orb_true_r.
Qed.

Lemma getitem_Ok_range (a : Np.ndarray) (i : Z) (v : float) :
  Np.getitem a i = Ok v ->
  (- Z.of_nat (length a) <= i < Z.of_nat (length a))%Z.
Proof.
  unfold Np.getitem.
  destruct (Z.ltb_spec i (- Z.of_nat (length a)));
    destruct (Z.leb_spec (Z.of_nat (length a)) i); simpl; try discriminate.
  lia.
Qed.

Lemma getslice_prefix (a : Np.ndarray) (k : Z) :
  (0 <= k <= Z.of_nat (length a))%Z ->
  Np.getslice a 0 k = firstn (Z.to_nat k) a.
Proof.
  intros Hk. unfold Np.getslice, Np.clamp.
  destruct (Z.ltb_spec k 0); [lia|].
  change (0 <? 0)%Z with false. cbv iota.
  replace (Z.max 0 (Z.min (Z.of_nat (length a)) 0)) with 0%Z by lia.
  replace (Z.max 0 (Z.min (Z.of_nat (length a)) k) - 0)%Z with k by lia.
  reflexivity.
Qed.

Lemma getslice_prefix_length (a : Np.ndarray) (k : Z) :
  (0 <= k <= Z.of_nat (length a))%Z ->
  length (Np.getslice a 0 k) = Z.to_nat k.
Proof.
  intros Hk. rewrite getslice_prefix by exact Hk.
  rewrite length_firstn. lia.
Qed.

(** ** The arrays of SHM.py *)

Section Arrays.

Variables (R omega : float).

Lemma arrays_of_lengths (tl : Np.ndarray) :
  let s := SHM.arrays_of R omega tl in
  length (t_full s) = length tl /\ length (x_full s) = length tl /\
  length (y_full s) = length tl /\ length (z_full s) = length tl /\
  length (d_full s) = length tl /\ length (v_full s) = length tl /\
  length (a_full s) = length tl /\ length (F_full s) = length tl.
Proof.
  simpl. unfold Np.copy, Np.scal, Np.cos, Np.sin, Np.zeros_like.
  rewrite !length_map. repeat split; reflexivity.
Qed.

(** Reading the eight arrays at a valid index gives the closed forms at
    the time stored there. *)
Lemma frame_arrays_of (tl : Np.ndarray) (i : Z) :
  (0 <= i < Z.of_nat (length tl))%Z ->
  frame (SHM.arrays_of R omega tl) i
  = Ok (closed_form R omega (nth (Z.to_nat i) tl 0)).
Proof.
  intros Hi.
  assert (Hn : (Z.to_nat i < length tl)%nat) by lia.
  unfold frame, SHM.arrays_of; cbn [t_full x_full y_full z_full d_full v_full a_full F_full].
  unfold Np.copy, Np.scal, Np.cos, Np.sin, Np.zeros_like.
  rewrite !getitem_in by (rewrite ?length_map; exact Hi).
  cbn [bind].
  rewrite !(nth_map_in _ _ (Rmult _) _ _ 0 0) by (rewrite ?length_map; exact Hn).
  rewrite !(nth_map_in _ _ Rtrigo_def.cos _ _ 0 0) by (rewrite ?length_map; exact Hn).
  rewrite !(nth_map_in _ _ Rtrigo_def.sin _ _ 0 0) by (rewrite ?length_map; exact Hn).
  rewrite !(nth_map_in _ _ (Rmult _) _ _ 0 0) by exact Hn.
  rewrite (nth_map_in _ _ (fun _ => 0) _ _ 0 0) by exact Hn.
  reflexivity.
Qed.

Lemma frame_arrays_of_out (tl : Np.ndarray) (i : Z) :
  (Z.of_nat (length tl) <= i)%Z ->
  frame (SHM.arrays_of R omega tl) i = Raise IndexError.
Proof.
  intros Hi. unfold frame. cbn [SHM.arrays_of t_full].
  now rewrite getitem_out.
Qed.

End Arrays.

(** ** The sampler of SHM.py *)

Lemma sampler_arrays_of (R omega t_max : float) (N : Z) (s : SampleSet) :
  SHM.sampler R omega t_max N = Ok s ->
  exists tl, Np.linspace 0 t_max N = Ok tl /\ s = SHM.arrays_of R omega tl.
Proof.
  unfold SHM.sampler. destruct (Np.linspace 0 t_max N) as [tl|e]; simpl.
  - intros [= <-]. eauto.
  - discriminate.
Qed.

Lemma sampler_total (R omega t_max : float) (N : Z) :
  (0 <= N)%Z -> exists s, SHM.sampler R omega t_max N = Ok s.
Proof.
  intros H. destruct (linspace_total 0 t_max N H) as [tl E].
  unfold SHM.sampler. rewrite E. simpl. eauto.
Qed.

Lemma sampler_lengths (R omega t_max : float) (N : Z) (s : SampleSet) :
  SHM.sampler R omega t_max N = Ok s ->
  length (t_full s) = Z.to_nat N /\ length (x_full s) = Z.to_nat N /\
  length (y_full s) = Z.to_nat N /\ length (z_full s) = Z.to_nat N /\
  length (d_full s) = Z.to_nat N /\ length (v_full s) = Z.to_nat N /\
  length (a_full s) = Z.to_nat N /\ length (F_full s) = Z.to_nat N.
Proof.
  intros Hs. destruct (sampler_arrays_of _ _ _ _ _ Hs) as (tl & Hl & ->).
  rewrite <- (linspace_length _ _ _ _ Hl). apply arrays_of_lengths.
Qed.

Lemma sampler_frame (R omega t_max : float) (N : Z) (s : SampleSet) (i : Z) :
  SHM.sampler R omega t_max N = Ok s -> (0 <= i < N)%Z ->
  frame s i = Ok (closed_form R omega (nth (Z.to_nat i) (t_full s) 0)).
Proof.
  intros Hs Hi. destruct (sampler_arrays_of _ _ _ _ _ Hs) as (tl & Hl & ->).
  pose proof (linspace_length _ _ _ _ Hl) as Hlen.
  rewrite frame_arrays_of by lia. reflexivity.
Qed.

Lemma sampler_time (R omega t_max : float) (N : Z) (s : SampleSet) (i : Z) :
  SHM.sampler R omega t_max N = Ok s -> (1 < N)%Z -> (0 <= i < N)%Z ->
  nth (Z.to_nat i) (t_full s) 0 = IZR i * (t_max / IZR (N - 1)).
Proof.
  intros Hs HN Hi. destruct (sampler_arrays_of _ _ _ _ _ Hs) as (tl & Hl & ->).
  cbn [SHM.arrays_of t_full].
  rewrite (linspace_nth _ _ _ _ _ Hl HN) by lia.
  rewrite INR_IZR_INZ, Z2Nat.id by lia. unfold Rdiv. ring.
Qed.

(** ** Parameter validation *)








(** ** The closed forms *)





(** ** The time grid *)

Lemma sampler_getitem_time (R omega t_max : float) (N : Z) (s : SampleSet) (i : Z) :
  SHM.sampler R omega t_max N = Ok s -> (1 < N)%Z -> (0 <= i < N)%Z ->
  Np.getitem (t_full s) i = Ok (IZR i * (t_max / IZR (N - 1))).
Proof.
  intros Hs HN Hi.
  destruct (sampler_lengths _ _ _ _ _ Hs) as (Hlen & _).
  rewrite getitem_in by lia.
  now rewrite (sampler_time R omega t_max N).
Qed.



(** ** The circle *)



(** ** Resampling *)

(** The grids of [N] and of [2 N] frames do share times: the first frame
    of each is at [t = 0] and the last of each at [t = t_max]. *)
Lemma doubled_grid_shares_endpoints (R omega t_max : float) (N : Z)
      (s1 s2 : SampleSet) :
  (1 < N)%Z ->
  SHM.sampler R omega t_max N = Ok s1 ->
  SHM.sampler R omega t_max (2 * N) = Ok s2 ->
  (Np.getitem (t_full s1) 0 = Ok 0 /\ Np.getitem (t_full s2) 0 = Ok 0) /\
  (Np.getitem (t_full s1) (N - 1) = Ok t_max /\
   Np.getitem (t_full s2) (2 * N - 1) = Ok t_max).
Proof.
  intros HN H1 H2.
  assert (D1 : IZR (N - 1) <> 0) by (apply not_0_IZR; lia).
  assert (D2 : IZR (2 * N - 1) <> 0) by (apply not_0_IZR; lia).
  rewrite !(sampler_getitem_time _ _ _ _ _ _ H1) by lia.
  rewrite !(sampler_getitem_time _ _ _ _ _ _ H2) by lia.
  repeat split; f_equal; field; assumption.
Qed.



(** ** The script's own run *)

Lemma getitem_neg (a : Np.ndarray) (i : Z) :
  (- Z.of_nat (length a) <= i < 0)%Z ->
  Np.getitem a i = Ok (nth (Z.to_nat (i + Z.of_nat (length a))) a 0).
Proof.
  intros Hi. unfold Np.getitem.
  destruct (Z.ltb_spec i (- Z.of_nat (length a))); [lia|].
  destruct (Z.leb_spec (Z.of_nat (length a)) i); [lia|].
  destruct (Z.ltb_spec i 0); [|lia]. reflexivity.
Qed.

(** Whatever index reads it, a time of the grid is a multiple of the step. *)
Lemma sampler_times_on_grid (R omega t_max : float) (N : Z) (s : SampleSet)
      (i : Z) (v : float) :
  SHM.sampler R omega t_max N = Ok s -> (1 < N)%Z ->
  Np.getitem (t_full s) i = Ok v ->
  exists k, (0 <= k < N)%Z /\ v = IZR k * (t_max / IZR (N - 1)).
Proof.
  intros Hs HN Hv.
  destruct (sampler_lengths _ _ _ _ _ Hs) as (Hlen & _).
  pose proof (getitem_Ok_range _ _ _ Hv) as Hr. rewrite Hlen in Hr.
  destruct (Z.lt_ge_cases i 0) as [Hneg|Hpos].
  - exists (i + N)%Z. split; [lia|].
    rewrite getitem_neg in Hv by lia. injection Hv as <-.
    rewrite Hlen, Z2Nat.id by lia.
    apply (sampler_time R omega t_max N s (i + N) Hs HN). lia.
  - exists i. split; [lia|].
    rewrite (sampler_getitem_time _ _ _ _ _ _ Hs HN) in Hv by lia.
    now injection Hv as <-.
Qed.

Lemma startup_valid : valid_params SHM.R (IZR SHM.t_max) SHM.n_frames.
Proof.
  unfold valid_params, SHM.R, SHM.t_max, SHM.n_frames, SHM.fps.
  split; [lra|]. split; [lra|]. simpl. lia.
Qed.

(** C4, as stated, fails: the scenario speaks of the frame at [t = 1.25],
    and the script's grid of 300 frames over [0, 10] has no such frame,
    whatever index it is read at. *)
Lemma no_frame_at_quarter_period :
  exists s, SHM.startup = Ok s /\
    ~ exists i, Np.getitem (t_full s) i = Ok (5 / 4).
Proof.
  destruct (sampler_total SHM.R SHM.omega (IZR SHM.t_max) SHM.n_frames)
    as [s Hs]; [vm_compute; discriminate|].
  exists s. split; [exact Hs|]. intros [i Hi].
  destruct (sampler_times_on_grid _ _ _ _ _ _ _ Hs ltac:(reflexivity) Hi)
    as (k & Hk & E).
  change (IZR (SHM.n_frames - 1)) with 299 in E.
  change (IZR SHM.t_max) with 10 in E.
  assert (E' : IZR (40 * k) = IZR 1495) by (rewrite mult_IZR; lra).
  apply eq_IZR in E'. lia.
Qed.

(** The frame nearest the quarter period is frame 37; its phase is short
    of a right angle by [3 PI / 598]. *)
Lemma phase_frame_37 :
  SHM.omega * (IZR 37 * (IZR SHM.t_max / IZR (SHM.n_frames - 1)))
  = PI / 2 - 3 * PI / 598.
Proof.
  unfold SHM.omega. change (IZR (SHM.n_frames - 1)) with 299.
  change (IZR SHM.t_max) with 10. field.
Qed.

Lemma small_angle_bounds (e : float) :
  0 < e <= 1 / 40 ->
  0 < sin e <= 1 / 40 /\ 1 - 1 / 1000 <= cos e <= 1.
Proof.
  intros [He0 He1].
  pose proof PI_RGT_0 as Hpi. pose proof PI2_1 as Hpi2.
  assert (Hs0 : 0 < sin e) by (apply sin_gt_0; lra).
  assert (Hs1 : sin e < e) by (apply sin_lt_x; exact He0).
  assert (Hh0 : 0 < sin (e / 2)) by (apply sin_gt_0; lra).
  assert (Hh1 : sin (e / 2) < e / 2) by (apply sin_lt_x; lra).
  assert (Hc : cos e = 1 - 2 * sin (e / 2) * sin (e / 2)).
  { replace e with (2 * (e / 2)) at 1 by field. apply cos_2a_sin. }
  split; [lra|]. rewrite Hc. split; nra.
Qed.

(** C4, amended: with the script's parameters ([R = 1], [omega = 2 PI / 5],
    [t_max = 10], 300 frames) frame 0 is
    [(t=0, x=1, y=0, z=0, d=1, v=0, a=-omega^2, F=-omega^2)]; every frame
    is at least [15/1196] away from [t = 1.25]; the nearest one, frame 37
    at [t = 370/299], has [|x| <= 1/40], [|y - 1| <= 1/1000],
    [|d| <= 1/40], [|v + R omega| <= omega/1000] and [|a| <= omega^2/40]. *)
Theorem scenario_frames :
  exists s, SHM.startup = Ok s /\
    frame s 0
    = Ok (mkFrame 0 1 0 0 1 0 (- SHM.omega ^ 2) (- SHM.omega ^ 2)) /\
    (forall i f, (0 <= i < SHM.n_frames)%Z -> frame s i = Ok f ->
       15 / 1196 <= Rabs (ft f - 5 / 4)) /\
    exists f, frame s 37 = Ok f /\
      ft f = 370 / 299 /\
      Rabs (ft f - 5 / 4) = 15 / 1196 /\
      Rabs (fx f) <= 1 / 40 /\
      Rabs (fy f - 1) <= 1 / 1000 /\
      Rabs (fd f) <= 1 / 40 /\
      Rabs (fv f - (- SHM.R * SHM.omega)) <= SHM.omega / 1000 /\
      Rabs (fa f) <= SHM.omega ^ 2 / 40.
Proof.
  pose proof startup_valid as (_ & _ & HN).
  destruct (sampler_total SHM.R SHM.omega (IZR SHM.t_max) SHM.n_frames)
    as [s Hs]; [lia|].
  exists s. split; [exact Hs|].
  assert (Ht : forall i, (0 <= i < SHM.n_frames)%Z ->
            nth (Z.to_nat i) (t_full s) 0 = IZR i * (10 / 299)).
  { intros i Hi. now rewrite (sampler_time _ _ _ _ _ _ Hs HN Hi). }
  split; [|split].
  - rewrite (sampler_frame _ _ _ _ _ _ Hs) by (vm_compute; split; congruence).
    rewrite Ht by (vm_compute; split; congruence).
    unfold closed_form, SHM.R.
    replace (SHM.omega * (0 * (10 / 299))) with 0 by ring.
    rewrite cos_0, sin_0. f_equal. f_equal; ring.
  - intros i f Hi Hf.
    rewrite (sampler_frame _ _ _ _ _ _ Hs Hi) in Hf. injection Hf as <-.
    cbn [closed_form ft]. rewrite (Ht i Hi).
    change SHM.n_frames with 300%Z in Hi.
    destruct (Z.le_gt_cases i 37) as [Hle|Hgt].
    + apply IZR_le in Hle. rewrite Rabs_left1; lra.
    + assert (H38 : (38 <= i)%Z) by lia.
      apply IZR_le in H38. rewrite Rabs_right; lra.
  - eexists.
    split; [apply (sampler_frame _ _ _ _ _ _ Hs); vm_compute; split; congruence|].
    cbn [closed_form ft fx fy fd fv fa].
    change (Z.to_nat 37) with (Z.to_nat 37%Z).
    pose proof (sampler_time _ _ _ _ _ 37 Hs HN ltac:(vm_compute; split; congruence))
      as E37.
    rewrite E37, phase_frame_37, cos_shift, sin_shift.
    assert (He : 0 < 3 * PI / 598 <= 1 / 40).
    { pose proof PI_RGT_0. pose proof PI_4. lra. }
    destruct (small_angle_bounds _ He) as ((Hs0 & Hs1) & Hc0 & Hc1).
    set (sn := sin (3 * PI / 598)) in *. set (cs := cos (3 * PI / 598)) in *.
    assert (Hw : 0 < SHM.omega)
      by (unfold SHM.omega; pose proof PI_RGT_0; lra).
    assert (Hw2 : 0 < SHM.omega ^ 2) by nra.
    change (IZR SHM.t_max) with 10. change (IZR (SHM.n_frames - 1)) with 299.
    unfold SHM.R.
    split; [lra|]. split; [rewrite Rabs_left1; lra|].
    split; [apply Rabs_le; lra|]. split; [apply Rabs_le; lra|].
    split; [apply Rabs_le; lra|].
    split; apply Rabs_le; nra.
Qed.

(** ** The animation callback only reads the arrays *)

Create HintDb reads_only.

Lemma reads_only_ret (A : Type) (a : A) : reads_only (ret a).
Proof. intros w. reflexivity. Qed.

Lemma reads_only_bindM (A B : Type) (m : M A) (k : A -> M B) :
  reads_only m -> (forall a, reads_only (k a)) -> reads_only (bindM m k).
Proof.
  intros Hm Hk w. unfold bindM.
  specialize (Hm w). destruct (m w) as [[a|e] w']; simpl in *.
  - now rewrite Hk.
  - exact Hm.
Qed.

Lemma reads_only_index (a : SampleSet -> Np.ndarray) (i : Z) :
  reads_only (index a i).
Proof. intros w. reflexivity. Qed.

Lemma reads_only_slice (a : SampleSet -> Np.ndarray) (lo hi : Z) :
  reads_only (slice a lo hi).
Proof. intros w. reflexivity. Qed.

Lemma reads_only_on_point_3d f : reads_only (on_point_3d f).
Proof. intros w. reflexivity. Qed.

Lemma reads_only_on_line_center_to_point f :
  reads_only (on_line_center_to_point f).
Proof. intros w. reflexivity. Qed.

Lemma reads_only_on_proj_line f : reads_only (on_proj_line f).
Proof. intros w. reflexivity. Qed.

Lemma reads_only_get_force_quiver : reads_only get_force_quiver.
Proof. intros w. reflexivity. Qed.

Lemma reads_only_set_force_quiver q : reads_only (set_force_quiver q).
Proof. intros w. reflexivity. Qed.

Lemma reads_only_quiver_remove q : reads_only (quiver_remove q).
Proof. intros w. reflexivity. Qed.

Lemma reads_only_ax3d_quiver x y z u v w : reads_only (ax3d_quiver x y z u v w).
Proof. intros wd. reflexivity. Qed.

Lemma reads_only_on_line_f f : reads_only (on_line_f f).
Proof. intros w. reflexivity. Qed.

Lemma reads_only_on_line_d f : reads_only (on_line_d f).
Proof. intros w. reflexivity. Qed.

Lemma reads_only_on_line_v f : reads_only (on_line_v f).
Proof. intros w. reflexivity. Qed.

Lemma reads_only_on_line_a f : reads_only (on_line_a f).
Proof. intros w. reflexivity. Qed.

#[local] Hint Resolve reads_only_ret reads_only_index reads_only_slice
  reads_only_on_point_3d reads_only_on_line_center_to_point
  reads_only_on_proj_line reads_only_get_force_quiver
  reads_only_set_force_quiver reads_only_quiver_remove
  reads_only_ax3d_quiver reads_only_on_line_f
  reads_only_on_line_d reads_only_on_line_v reads_only_on_line_a
  : reads_only.

Ltac reads_only_case :=
  match goal with
  | |- reads_only (match ?o with _ => _ end) => destruct o
  end.

Ltac reads_only_steps :=
  repeat (apply reads_only_bindM;
          [try reads_only_case; auto with reads_only | intros ?]);
  auto with reads_only.

Lemma update_reads_only (R omega : float) (frame : Z) :
  reads_only (SHM.update R omega frame).
Proof. unfold SHM.update. reads_only_steps. Qed.

Lemma animate_reads_only (R omega : float) (frames : list Z) :
  reads_only (SHM.animate R omega frames).
Proof.
  induction frames as [|frame rest IH]; simpl.
  - apply reads_only_ret.
  - apply reads_only_bindM; [apply update_reads_only | intros _; exact IH].
Qed.

(** C7: [update] leaves the eight arrays unchanged at every frame index
    and in every world, whether it returns or raises; so does a whole
    pass of the animation over any list of frame indices. *)
Theorem sample_set_never_mutated (R omega : float) :
  (forall (frame : Z) (w : World),
     arrays (snd (SHM.update R omega frame w)) = arrays w) /\
  (forall (frames : list Z) (w : World),
     arrays (snd (SHM.animate R omega frames w)) = arrays w).
Proof.
  split.
  - intros frame. apply update_reads_only.
  - intros frames. apply animate_reads_only.
Qed.

(** ** The two scripts *)

(** C8: the desktop script and the streamlit script compute the same
    sample set (or raise the same exception) from the same parameters,
    and they run with the same parameters. *)
Theorem entry_points_agree (R omega t_max : float) (N : Z) :
  SHM.sampler R omega t_max N = SHMstreamlit.sampler R omega t_max N /\
  (SHM.R, SHM.omega, SHM.t_max, SHM.n_frames)
  = (SHMstreamlit.R, SHMstreamlit.omega, SHMstreamlit.t_max,
     SHMstreamlit.n_frames) /\
  SHM.startup = SHMstreamlit.startup.
Proof.
  assert (E : forall tl, SHM.arrays_of R omega tl
                         = SHMstreamlit.arrays_of R omega tl).
  { intros tl. unfold SHM.arrays_of, SHMstreamlit.arrays_of. reflexivity. }
  split; [|split].
  - unfold SHM.sampler, SHMstreamlit.sampler.
    destruct (Np.linspace 0 t_max N) as [tl|e]; simpl; [now rewrite E|reflexivity].
  - reflexivity.
  - reflexivity.
Qed.

(** ** What one call of the callback does *)

(** When the seven element reads succeed, [update] returns and the world
    it leaves is this one. *)
Lemma update_run (R omega : float) (frame : Z) (w : World)
      (t x y z d v a : float) :
  Np.getitem (t_full (arrays w)) frame = Ok t ->
  Np.getitem (x_full (arrays w)) frame = Ok x ->
  Np.getitem (y_full (arrays w)) frame = Ok y ->
  Np.getitem (z_full (arrays w)) frame = Ok z ->
  Np.getitem (d_full (arrays w)) frame = Ok d ->
  Np.getitem (v_full (arrays w)) frame = Ok v ->
  Np.getitem (a_full (arrays w)) frame = Ok a ->
  SHM.update R omega frame w
  = (Ok tt,
     mkWorld (arrays w)
       (mkQuiver x y z
          (- R * omega ^ 2 * cos (omega * t))
          (- R * omega ^ 2 * sin (omega * t)) 0
        :: match force_quiver w with
           | Some q => remove Quiver_eq_dec q (ax3d_quivers w)
           | None => ax3d_quivers w
           end)
       (mkLine3D [x] [y] [z])
       (mkLine3D [0; x] [0; y] [0; z])
       (mkLine3D [x; x] [0; 0] [0; z])
       (Some (mkQuiver x y z
                (- R * omega ^ 2 * cos (omega * t))
                (- R * omega ^ 2 * sin (omega * t)) 0))
       (mkLine2D (Np.getslice (t_full (arrays w)) 0 (frame + 1))
                 (Np.getslice (F_full (arrays w)) 0 (frame + 1)))
       (mkLine2D (Np.getslice (t_full (arrays w)) 0 (frame + 1))
                 (Np.getslice (d_full (arrays w)) 0 (frame + 1)))
       (mkLine2D (Np.getslice (t_full (arrays w)) 0 (frame + 1))
                 (Np.getslice (v_full (arrays w)) 0 (frame + 1)))
       (mkLine2D (Np.getslice (t_full (arrays w)) 0 (frame + 1))
                 (Np.getslice (a_full (arrays w)) 0 (frame + 1)))).
Proof.
  intros Ht Hx Hy Hz Hd Hv Ha.
  unfold SHM.update, bindM, index.
  rewrite Ht, Hx, Hy, Hz, Hd, Hv, Ha.
  unfold get_force_quiver. cbn [on_point_3d on_line_center_to_point
    on_proj_line force_quiver].
  destruct (force_quiver w); reflexivity.
Qed.

(** The first read fails past the end of the arrays, and then nothing has
    been written. *)
Lemma update_past_end (R omega : float) (frame : Z) (w : World) :
  (Z.of_nat (length (t_full (arrays w))) <= frame)%Z ->
  SHM.update R omega frame w = (Raise IndexError, w).
Proof.
  intros H. unfold SHM.update, bindM, index.
  now rewrite getitem_out.
Qed.

Lemma frame_reads (s : SampleSet) (i : Z) (f : Frame) :
  frame s i = Ok f ->
  Np.getitem (t_full s) i = Ok (ft f) /\ Np.getitem (x_full s) i = Ok (fx f) /\
  Np.getitem (y_full s) i = Ok (fy f) /\ Np.getitem (z_full s) i = Ok (fz f) /\
  Np.getitem (d_full s) i = Ok (fd f) /\ Np.getitem (v_full s) i = Ok (fv f) /\
  Np.getitem (a_full s) i = Ok (fa f) /\ Np.getitem (F_full s) i = Ok (fF f).
Proof.
  unfold frame.
  destruct (Np.getitem (t_full s) i); [|discriminate].
  destruct (Np.getitem (x_full s) i); [|discriminate].
  destruct (Np.getitem (y_full s) i); [|discriminate].
  destruct (Np.getitem (z_full s) i); [|discriminate].
  destruct (Np.getitem (d_full s) i); [|discriminate].
  destruct (Np.getitem (v_full s) i); [|discriminate].
  destruct (Np.getitem (a_full s) i); [|discriminate].
  destruct (Np.getitem (F_full s) i); [|discriminate].
  simpl. intros [= <-]. simpl. repeat split; reflexivity.
Qed.

Lemma remove_single (q : Quiver) : remove Quiver_eq_dec q [q] = [].
Proof. simpl. now destruct (Quiver_eq_dec q q). Qed.

(** In a world holding the sampler's arrays, [update] returns on every
    frame index of the range; the arrow it draws is the only one left on
    the axes when it was so before. *)
Lemma update_in_range (R omega t_max : float) (N : Z) (w : World) (i : Z) :
  SHM.sampler R omega t_max N = Ok (arrays w) -> (0 <= i < N)%Z ->
  exists w', SHM.update R omega i w = (Ok tt, w') /\
    force_quiver w' =
      Some (let t := nth (Z.to_nat i) (t_full (arrays w)) 0 in
            mkQuiver (R * cos (omega * t)) (R * sin (omega * t)) 0
                     (- R * omega ^ 2 * cos (omega * t))
                     (- R * omega ^ 2 * sin (omega * t)) 0) /\
    (one_arrow w -> one_arrow w').
Proof.
  intros Hs Hi.
  pose proof (sampler_frame _ _ _ _ _ _ Hs Hi) as Hf.
  apply frame_reads in Hf.
  destruct Hf as (Ht & Hx & Hy & Hz & Hd & Hv & Ha & _).
  eexists. split; [|split].
  - apply (update_run R omega i w _ _ _ _ _ _ _ Ht Hx Hy Hz Hd Hv Ha).
  - reflexivity.
  - unfold one_arrow. cbn [ax3d_quivers force_quiver]. intros ->.
    destruct (force_quiver w); [now rewrite remove_single|reflexivity].
Qed.

(** C9: in a world holding the sampler's arrays, at every frame index of
    the range the force components [update] recomputes are the stored
    ones: [fx = -R w^2 cos(w t_full[i]) = a_full[i] = F_full[i]],
    [fy = -R w^2 sin(w t_full[i]) = -w^2 y_full[i]] and [fz = 0]. *)
Theorem recomputed_force_matches_arrays
        (R omega t_max : float) (N : Z) (s : SampleSet) (w : World) (i : Z) :
  SHM.sampler R omega t_max N = Ok s -> arrays w = s -> (0 <= i < N)%Z ->
  exists q t y a,
    force_quiver (snd (SHM.update R omega i w)) = Some q /\
    Np.getitem (t_full s) i = Ok t /\
    Np.getitem (y_full s) i = Ok y /\
    Np.getitem (a_full s) i = Ok a /\
    Np.getitem (F_full s) i = Ok a /\
    qu q = - R * omega ^ 2 * cos (omega * t) /\ qu q = a /\
    qv q = - R * omega ^ 2 * sin (omega * t) /\ qv q = - omega ^ 2 * y /\
    qw q = 0.
Proof.
  intros Hs <- Hi.
  destruct (update_in_range R omega t_max N w i Hs Hi) as (w' & Hu & Hq & _).
  pose proof (sampler_frame _ _ _ _ _ _ Hs Hi) as Hf.
  apply frame_reads in Hf. cbn [closed_form ft fx fy fz fd fv fa fF] in Hf.
  destruct Hf as (Ht & _ & Hy & _ & _ & _ & Ha & HF).
  rewrite Hu. cbn [snd]. rewrite Hq.
  do 4 eexists. split; [reflexivity|].
  split; [exact Ht|]. split; [exact Hy|]. split; [exact Ha|].
  split; [exact HF|]. cbn [qu qv qw].
  repeat split; ring.
Qed.

(** C10: in a world holding the sampler's arrays, at every frame index of
    the range each element read of [update] succeeds, each slice
    [0 : frame + 1] holds exactly [frame + 1] elements (nothing is
    clamped), and [update] returns. *)
Theorem update_total_in_range
        (R omega t_max : float) (N : Z) (s : SampleSet) (w : World) (i : Z) :
  SHM.sampler R omega t_max N = Ok s -> arrays w = s -> (0 <= i < N)%Z ->
  (exists t x y z d v a,
     Np.getitem (t_full s) i = Ok t /\ Np.getitem (x_full s) i = Ok x /\
     Np.getitem (y_full s) i = Ok y /\ Np.getitem (z_full s) i = Ok z /\
     Np.getitem (d_full s) i = Ok d /\ Np.getitem (v_full s) i = Ok v /\
     Np.getitem (a_full s) i = Ok a) /\
  (length (Np.getslice (t_full s) 0 (i + 1)) = Z.to_nat (i + 1) /\
   length (Np.getslice (F_full s) 0 (i + 1)) = Z.to_nat (i + 1) /\
   length (Np.getslice (d_full s) 0 (i + 1)) = Z.to_nat (i + 1) /\
   length (Np.getslice (v_full s) 0 (i + 1)) = Z.to_nat (i + 1) /\
   length (Np.getslice (a_full s) 0 (i + 1)) = Z.to_nat (i + 1)) /\
  fst (SHM.update R omega i w) = Ok tt.
Proof.
  intros Hs <- Hi.
  destruct (update_in_range R omega t_max N w i Hs Hi) as (w' & Hu & _ & _).
  pose proof (sampler_frame _ _ _ _ _ _ Hs Hi) as Hf.
  apply frame_reads in Hf.
  destruct Hf as (Ht & Hx & Hy & Hz & Hd & Hv & Ha & _).
  destruct (sampler_lengths _ _ _ _ _ Hs)
    as (Lt & _ & _ & _ & Ld & Lv & La & LF).
  split; [|split].
  - do 7 eexists. repeat split; eassumption.
  - repeat split; apply getslice_prefix_length; lia.
  - now rewrite Hu.
Qed.

Lemma recomputed_force_matches_arrays_witness :
  exists s w,
    SHM.sampler 1 (2 * PI / 5) 10 300 = Ok s /\ arrays w = s /\
    (0 <= 37 < 300)%Z /\
    exists q t y a,
      force_quiver (snd (SHM.update 1 (2 * PI / 5) 37 w)) = Some q /\
      Np.getitem (t_full s) 37 = Ok t /\
      Np.getitem (y_full s) 37 = Ok y /\
      Np.getitem (a_full s) 37 = Ok a /\
      Np.getitem (F_full s) 37 = Ok a /\
      qu q = - 1 * (2 * PI / 5) ^ 2 * cos (2 * PI / 5 * t) /\ qu q = a /\
      qv q = - 1 * (2 * PI / 5) ^ 2 * sin (2 * PI / 5 * t) /\
      qv q = - (2 * PI / 5) ^ 2 * y /\
      qw q = 0.
Proof.
  assert (Hi : (0 <= 37 < 300)%Z) by lia.
  do 2 eexists.
  split; [reflexivity|].
  split; [exact (eq_refl : arrays (initial_world _) = _)|].
  split; [exact Hi|].
  exact (recomputed_force_matches_arrays 1 (2 * PI / 5) 10 300 _
           (initial_world _) 37 eq_refl eq_refl Hi).
Defined.

Lemma update_total_in_range_witness :
  exists s w,
    SHM.sampler 1 (2 * PI / 5) 10 300 = Ok s /\ arrays w = s /\
    (0 <= 299 < 300)%Z /\
    (exists t x y z d v a,
       Np.getitem (t_full s) 299 = Ok t /\ Np.getitem (x_full s) 299 = Ok x /\
       Np.getitem (y_full s) 299 = Ok y /\ Np.getitem (z_full s) 299 = Ok z /\
       Np.getitem (d_full s) 299 = Ok d /\ Np.getitem (v_full s) 299 = Ok v /\
       Np.getitem (a_full s) 299 = Ok a) /\
    (length (Np.getslice (t_full s) 0 (299 + 1)) = Z.to_nat (299 + 1) /\
     length (Np.getslice (F_full s) 0 (299 + 1)) = Z.to_nat (299 + 1) /\
     length (Np.getslice (d_full s) 0 (299 + 1)) = Z.to_nat (299 + 1) /\
     length (Np.getslice (v_full s) 0 (299 + 1)) = Z.to_nat (299 + 1) /\
     length (Np.getslice (a_full s) 0 (299 + 1)) = Z.to_nat (299 + 1)) /\
    fst (SHM.update 1 (2 * PI / 5) 299 w) = Ok tt.
Proof.
  assert (Hi : (0 <= 299 < 300)%Z) by lia.
  do 2 eexists.
  split; [reflexivity|].
  split; [exact (eq_refl : arrays (initial_world _) = _)|].
  split; [exact Hi|].
  exact (update_total_in_range 1 (2 * PI / 5) 10 300 _
           (initial_world _) 299 eq_refl eq_refl Hi).
Defined.

(** ** The whole animation *)

Lemma range_bounds (n i : Z) : In i (range n) -> (0 <= i < n)%Z.
Proof.
  unfold range. rewrite in_map_iff. intros (k & <- & Hk).
  apply in_seq in Hk. lia.
Qed.

(** A pass over frame indices of the range returns: no call raises; and
    it keeps a single arrow on the axes. *)
Lemma animate_in_range (R omega t_max : float) (N : Z) (frames : list Z) :
  (forall i, In i frames -> (0 <= i < N)%Z) ->
  forall w, SHM.sampler R omega t_max N = Ok (arrays w) ->
  fst (SHM.animate R omega frames w) = Ok tt /\
  (one_arrow w -> one_arrow (snd (SHM.animate R omega frames w))).
Proof.
  induction frames as [|i rest IH]; intros Hin w Hs.
  - split; [reflexivity|]. intros H; exact H.
  - destruct (update_in_range R omega t_max N w i Hs) as (w' & Hu & _ & Hone).
    { apply Hin. now left. }
    cbn [SHM.animate]. unfold bindM. rewrite Hu.
    destruct (IH (fun j Hj => Hin j (or_intror Hj)) w') as (Hok & Hinv).
    + pose proof (update_reads_only R omega i w) as E.
      rewrite Hu in E. cbn [snd] in E. now rewrite E.
    + split; [exact Hok|]. intros H. apply Hinv, Hone, H.
Qed.

(** The script as it stands: the 300 frames are computed, the animation
    draws each of them without an exception, the arrays are afterwards
    what they were, and one arrow is on the axes. *)
Lemma script_runs :
  exists s, SHM.startup = Ok s /\
    let w := initial_world s in
    let w' := snd (SHM.animate SHM.R SHM.omega (range SHM.n_frames) w) in
    SHM.animate SHM.R SHM.omega (range SHM.n_frames) w = (Ok tt, w') /\
    arrays w' = s /\ one_arrow w'.
Proof.
  destruct (sampler_total SHM.R SHM.omega (IZR SHM.t_max) SHM.n_frames)
    as [s Hs]; [vm_compute; discriminate|].
  exists s. split; [exact Hs|]. cbv zeta.
  destruct (animate_in_range SHM.R SHM.omega (IZR SHM.t_max) SHM.n_frames
              (range SHM.n_frames) (range_bounds _) (initial_world s) Hs)
    as (Hok & Hinv).
  split; [|split].
  - destruct (SHM.animate _ _ _ _) as [r w']. simpl in *. now subst.
  - apply animate_reads_only.
  - apply Hinv. reflexivity.
Qed.

(** * Further properties of the two scripts *)

(** ** Frames read at any index *)

Lemma getitem_map (f : float -> float) (a : Np.ndarray) (i : Z) :
  Np.getitem (map f a) i = bind (Np.getitem a i) (fun v => Ok (f v)).
Proof.
  unfold Np.getitem. rewrite length_map.
  destruct (Z.ltb_spec i (- Z.of_nat (length a)));
    destruct (Z.leb_spec (Z.of_nat (length a)) i); simpl; try reflexivity.
  f_equal. apply nth_map_in.
  destruct (Z.ltb_spec i 0); lia.
Qed.

Lemma frame_arrays_of_any (R omega : float) (tl : Np.ndarray) (i : Z) :
  frame (SHM.arrays_of R omega tl) i
  = bind (Np.getitem tl i) (fun t => Ok (closed_form R omega t)).
Proof.
  unfold frame, SHM.arrays_of;
    cbn [t_full x_full y_full z_full d_full v_full a_full F_full].
  unfold Np.copy, Np.scal, Np.cos, Np.sin, Np.zeros_like.
  rewrite !getitem_map.
  destruct (Np.getitem tl i) as [t|e]; reflexivity.
Qed.

(** Whatever index reads it, a frame of the sampler is the closed form at
    a time of the grid. *)
Lemma sampler_frame_any (R omega t_max : float) (N : Z) (s : SampleSet)
      (i : Z) (f : Frame) :
  SHM.sampler R omega t_max N = Ok s -> frame s i = Ok f ->
  Np.getitem (t_full s) i = Ok (ft f) /\ f = closed_form R omega (ft f).
Proof.
  intros Hs Hf. destruct (sampler_arrays_of _ _ _ _ _ Hs) as (tl & _ & ->).
  rewrite frame_arrays_of_any in Hf. cbn [SHM.arrays_of t_full].
  destruct (Np.getitem tl i) as [t|e]; simpl in Hf; [|discriminate].
  injection Hf as <-. split; reflexivity.
Qed.

(** The time grid in every case: [N > 1] gives multiples of the step,
    [N = 1] the single time 0. *)
Lemma sampler_time_bounds (R omega t_max : float) (N : Z) (s : SampleSet)
      (i : Z) (t : float) :
  SHM.sampler R omega t_max N = Ok s -> 0 <= t_max ->
  Np.getitem (t_full s) i = Ok t -> 0 <= t <= t_max.
Proof.
  intros Hs Ht Hi.
  destruct (Z.lt_ge_cases 1 N) as [HN|HN].
  - destruct (sampler_times_on_grid _ _ _ _ _ _ _ Hs HN Hi) as (k & Hk & ->).
    assert (Hd : 0 < IZR (N - 1)) by (apply IZR_lt; lia).
    assert (Hk0 : 0 <= IZR k) by (apply IZR_le; lia).
    assert (Hk1 : IZR k <= IZR (N - 1)) by (apply IZR_le; lia).
    assert (Hq : 0 <= t_max / IZR (N - 1))
      by (apply Rmult_le_pos; [exact Ht|left; now apply Rinv_0_lt_compat]).
    split; [now apply Rmult_le_pos|].
    replace t_max with (IZR (N - 1) * (t_max / IZR (N - 1))) at 2
      by (field; lra).
    now apply Rmult_le_compat_r.
  - destruct (sampler_lengths _ _ _ _ _ Hs) as (Hlen & _).
    pose proof (getitem_Ok_range _ _ _ Hi) as Hr. rewrite Hlen in Hr.
    assert (N = 1%Z) by lia. subst N.
    destruct (sampler_arrays_of _ _ _ _ _ Hs) as (tl & Hl & ->).
    cbn [SHM.arrays_of t_full] in *.
    unfold Np.linspace in Hl. simpl in Hl. injection Hl as <-.
    assert (E : i = 0%Z \/ i = (-1)%Z) by lia.
    assert (Hv : t = 0 * (t_max - 0) + 0).
    { destruct E as [-> | ->]; cbv in Hi; now injection Hi as <-. }
    rewrite Hv. lra.
Qed.

(** ** The curves stay inside the axes *)

Ltac trig_bounds u :=
  pose proof (COS_bound u) as [? ?]; pose proof (SIN_bound u) as [? ?].

(** X1: with a radius that is not negative, every frame's position
    [(x, y, z)] lies within the limits of the 3D axes and its displacement
    within those of the displacement plot. *)
Theorem positions_within_axes (R omega t_max : float) (N : Z)
        (s : SampleSet) (i : Z) (f : Frame) :
  0 <= R -> SHM.sampler R omega t_max N = Ok s -> frame s i = Ok f ->
  within (SHM.ax3d_xlim R) (fx f) /\ within (SHM.ax3d_ylim R) (fy f) /\
  within (SHM.ax3d_zlim R) (fz f) /\ within (SHM.ax_d_ylim R) (fd f).
Proof.
  intros HR Hs Hf.
  destruct (sampler_frame_any _ _ _ _ _ _ _ Hs Hf) as (_ & ->).
  unfold within, SHM.ax3d_xlim, SHM.ax3d_ylim, SHM.ax3d_zlim, SHM.ax_d_ylim,
    SHM.lim.
  cbn [closed_form fx fy fz fd fst snd ft].
  trig_bounds (omega * ft f).
  repeat split; nra.
Qed.

Lemma positions_within_axes_witness :
  exists s f,
    0 <= 1 /\ SHM.sampler 1 (2 * PI / 5) 10 300 = Ok s /\
    frame s 75 = Ok f /\
    within (SHM.ax3d_xlim 1) (fx f) /\ within (SHM.ax3d_ylim 1) (fy f) /\
    within (SHM.ax3d_zlim 1) (fz f) /\ within (SHM.ax_d_ylim 1) (fd f).
Proof.
  destruct (sampler_total 1 (2 * PI / 5) 10 300 ltac:(lia)) as [s Hs].
  pose proof (sampler_frame _ _ _ _ _ 75 Hs ltac:(lia)) as Hf.
  assert (HR : 0 <= 1) by lra.
  exists s. eexists. split; [exact HR|]. split; [exact Hs|].
  split; [exact Hf|].
  exact (positions_within_axes 1 (2 * PI / 5) 10 300 s 75 _ HR Hs Hf).
Defined.

(** X2: whatever the signs of the radius and of the angular velocity,
    every frame's velocity lies within the limits of the velocity plot. *)
Theorem velocity_within_axes (R omega t_max : float) (N : Z)
        (s : SampleSet) (i : Z) (f : Frame) :
  SHM.sampler R omega t_max N = Ok s -> frame s i = Ok f ->
  within (SHM.ax_v_ylim R omega) (fv f).
Proof.
  intros Hs Hf.
  destruct (sampler_frame_any _ _ _ _ _ _ _ Hs Hf) as (_ & ->).
  unfold within, SHM.ax_v_ylim, SHM.vel_lim.
  cbn [closed_form fv fst snd ft].
  trig_bounds (omega * ft f).
  replace (- R * omega) with (- (R * omega)) by ring.
  set (c := R * omega). unfold Rabs. destruct (Rcase_abs c); split; nra.
Qed.

Lemma velocity_within_axes_witness :
  exists s f,
    SHM.sampler (-1) (2 * PI / 5) 10 300 = Ok s /\ frame s 75 = Ok f /\
    within (SHM.ax_v_ylim (-1) (2 * PI / 5)) (fv f).
Proof.
  destruct (sampler_total (-1) (2 * PI / 5) 10 300 ltac:(lia)) as [s Hs].
  pose proof (sampler_frame _ _ _ _ _ 75 Hs ltac:(lia)) as Hf.
  exists s. eexists. split; [exact Hs|]. split; [exact Hf|].
  exact (velocity_within_axes (-1) (2 * PI / 5) 10 300 s 75 _ Hs Hf).
Defined.

(** X3: with a radius that is not negative, every frame's acceleration
    and force lie within the limits of their plots. *)
Theorem force_within_axes (R omega t_max : float) (N : Z)
        (s : SampleSet) (i : Z) (f : Frame) :
  0 <= R -> SHM.sampler R omega t_max N = Ok s -> frame s i = Ok f ->
  within (SHM.ax_a_ylim R omega) (fa f) /\
  within (SHM.ax_f_ylim R omega) (fF f).
Proof.
  intros HR Hs Hf.
  destruct (sampler_frame_any _ _ _ _ _ _ _ Hs Hf) as (_ & ->).
  unfold within, SHM.ax_a_ylim, SHM.ax_f_ylim, SHM.force_lim.
  cbn [closed_form fa fF fst snd ft].
  trig_bounds (omega * ft f).
  assert (Hw : 0 <= R * omega ^ 2) by (apply Rmult_le_pos; [exact HR|nra]).
  replace (- R * omega ^ 2) with (- (R * omega ^ 2)) by ring.
  set (c := R * omega ^ 2) in *.
  repeat split; nra.
Qed.

Lemma force_within_axes_witness :
  exists s f,
    0 <= 1 /\ SHM.sampler 1 (2 * PI / 5) 10 300 = Ok s /\
    frame s 75 = Ok f /\
    within (SHM.ax_a_ylim 1 (2 * PI / 5)) (fa f) /\
    within (SHM.ax_f_ylim 1 (2 * PI / 5)) (fF f).
Proof.
  destruct (sampler_total 1 (2 * PI / 5) 10 300 ltac:(lia)) as [s Hs].
  pose proof (sampler_frame _ _ _ _ _ 75 Hs ltac:(lia)) as Hf.
  assert (HR : 0 <= 1) by lra.
  exists s. eexists. split; [exact HR|]. split; [exact Hs|].
  split; [exact Hf|].
  exact (force_within_axes 1 (2 * PI / 5) 10 300 s 75 _ HR Hs Hf).
Defined.

(** X4: with a time span that is not negative, every time of the grid,
    at whatever index it is read, lies within the horizontal limits
    [(0, t_max)] of the four time plots. *)
Theorem times_within_axes (R omega t_max : float) (N : Z)
        (s : SampleSet) (i : Z) (t : float) :
  0 <= t_max -> SHM.sampler R omega t_max N = Ok s ->
  Np.getitem (t_full s) i = Ok t ->
  within (SHM.ax_f_xlim t_max) t /\ within (SHM.ax_d_xlim t_max) t /\
  within (SHM.ax_v_xlim t_max) t /\ within (SHM.ax_a_xlim t_max) t.
Proof.
  intros Ht Hs Hi.
  pose proof (sampler_time_bounds _ _ _ _ _ _ _ Hs Ht Hi) as H.
  repeat split; apply H.
Qed.

Lemma times_within_axes_witness :
  exists s t,
    0 <= 10 /\ SHM.sampler 1 (2 * PI / 5) 10 300 = Ok s /\
    Np.getitem (t_full s) (-1) = Ok t /\
    within (SHM.ax_f_xlim 10) t /\ within (SHM.ax_d_xlim 10) t /\
    within (SHM.ax_v_xlim 10) t /\ within (SHM.ax_a_xlim 10) t.
Proof.
  destruct (sampler_total 1 (2 * PI / 5) 10 300 ltac:(lia)) as [s Hs].
  destruct (sampler_lengths _ _ _ _ _ Hs) as (Hlen & _).
  pose proof (getitem_neg (t_full s) (-1) ltac:(rewrite Hlen; lia)) as Hi.
  assert (Ht : 0 <= 10) by lra.
  exists s. eexists. split; [exact Ht|]. split; [exact Hs|].
  split; [exact Hi|].
  exact (times_within_axes 1 (2 * PI / 5) 10 300 s (-1) _ Ht Hs Hi).
Defined.

(** ** The physics the arrays carry *)

(** X5: in every frame the acceleration is the displacement scaled by
    [- omega^2], which is what makes the projection a simple harmonic
    motion; the force is the position [x] scaled likewise. *)
Theorem acceleration_opposes_displacement (R omega t_max : float) (N : Z)
        (s : SampleSet) (i : Z) (f : Frame) :
  SHM.sampler R omega t_max N = Ok s -> frame s i = Ok f ->
  fa f = - omega ^ 2 * fd f /\ fF f = - omega ^ 2 * fx f.
Proof.
  intros Hs Hf.
  destruct (sampler_frame_any _ _ _ _ _ _ _ Hs Hf) as (_ & ->).
  cbn [closed_form fa fF fd fx ft]. split; ring.
Qed.

Lemma acceleration_opposes_displacement_witness :
  exists s f,
    SHM.sampler 1 (2 * PI / 5) 10 300 = Ok s /\ frame s 75 = Ok f /\
    fa f = - (2 * PI / 5) ^ 2 * fd f /\ fF f = - (2 * PI / 5) ^ 2 * fx f.
Proof.
  destruct (sampler_total 1 (2 * PI / 5) 10 300 ltac:(lia)) as [s Hs].
  pose proof (sampler_frame _ _ _ _ _ 75 Hs ltac:(lia)) as Hf.
  exists s. eexists. split; [exact Hs|]. split; [exact Hf|].
  exact (acceleration_opposes_displacement 1 (2 * PI / 5) 10 300 s 75 _ Hs Hf).
Defined.

(** X6: in every frame [v^2 + omega^2 d^2 = (R omega)^2]: the energy of
    the oscillator is the same in all frames. *)
Theorem energy_is_conserved (R omega t_max : float) (N : Z)
        (s : SampleSet) (i : Z) (f : Frame) :
  SHM.sampler R omega t_max N = Ok s -> frame s i = Ok f ->
  (fv f) ^ 2 + omega ^ 2 * (fd f) ^ 2 = (R * omega) ^ 2.
Proof.
  intros Hs Hf.
  destruct (sampler_frame_any _ _ _ _ _ _ _ Hs Hf) as (_ & ->).
  cbn [closed_form fv fd ft].
  set (u := omega * ft f).
  pose proof (sin2_cos2 u) as E. unfold Rsqr in E.
  replace ((- R * omega * sin u) ^ 2 + omega ^ 2 * (R * cos u) ^ 2)
    with ((R * omega) ^ 2 * (sin u * sin u + cos u * cos u)) by ring.
  rewrite E. ring.
Qed.

Lemma energy_is_conserved_witness :
  exists s f,
    SHM.sampler 1 (2 * PI / 5) 10 300 = Ok s /\ frame s 75 = Ok f /\
    (fv f) ^ 2 + (2 * PI / 5) ^ 2 * (fd f) ^ 2 = (1 * (2 * PI / 5)) ^ 2.
Proof.
  destruct (sampler_total 1 (2 * PI / 5) 10 300 ltac:(lia)) as [s Hs].
  pose proof (sampler_frame _ _ _ _ _ 75 Hs ltac:(lia)) as Hf.
  exists s. eexists. split; [exact Hs|]. split; [exact Hf|].
  exact (energy_is_conserved 1 (2 * PI / 5) 10 300 s 75 _ Hs Hf).
Defined.

Lemma closed_form_start (R omega : float) :
  closed_form R omega 0
  = mkFrame 0 R 0 0 R 0 (- R * omega ^ 2) (- R * omega ^ 2).
Proof.
  unfold closed_form. rewrite Rmult_0_r, cos_0, sin_0.
  f_equal; ring.
Qed.

Lemma sampler_time_zero (R omega t_max : float) (N : Z) (s : SampleSet) :
  SHM.sampler R omega t_max N = Ok s -> (1 <= N)%Z ->
  Np.getitem (t_full s) 0 = Ok 0.
Proof.
  intros Hs HN.
  destruct (Z.eq_dec N 1) as [->|Hne].
  - destruct (sampler_arrays_of _ _ _ _ _ Hs) as (tl & Hl & ->).
    unfold Np.linspace in Hl. simpl in Hl. injection Hl as <-.
    cbn [SHM.arrays_of t_full].
    change (Ok (INR 0 * (t_max - 0) + 0) = Ok 0). f_equal. simpl INR. ring.
  - rewrite (sampler_getitem_time _ _ _ _ _ _ Hs) by lia. f_equal. ring.
Qed.

(** X7: as soon as there is one frame, the first one is at [t = 0] with
    the particle at [(R, 0, 0)], at rest in the projection, under the
    acceleration [- R omega^2]; this needs neither a positive radius nor a
    positive time span. *)
Theorem first_frame (R omega t_max : float) (N : Z) (s : SampleSet) :
  (1 <= N)%Z -> SHM.sampler R omega t_max N = Ok s ->
  frame s 0 = Ok (mkFrame 0 R 0 0 R 0 (- R * omega ^ 2) (- R * omega ^ 2)).
Proof.
  intros HN Hs.
  pose proof (sampler_time_zero _ _ _ _ _ Hs HN) as H0.
  destruct (sampler_arrays_of _ _ _ _ _ Hs) as (tl & _ & ->).
  cbn [SHM.arrays_of t_full] in H0.
  rewrite frame_arrays_of_any, H0. cbn [bind].
  now rewrite closed_form_start.
Qed.

Lemma first_frame_witness :
  exists s,
    (1 <= 1)%Z /\ SHM.sampler (-3) 2 0 1 = Ok s /\
    frame s 0 = Ok (mkFrame 0 (-3) 0 0 (-3) 0 (- (-3) * 2 ^ 2) (- (-3) * 2 ^ 2)).
Proof.
  assert (HN : (1 <= 1)%Z) by lia.
  eexists. split; [exact HN|]. split; [reflexivity|].
  exact (first_frame (-3) 2 0 1 _ HN eq_refl).
Defined.

(** X8: when the time span is a whole number of periods
    ([omega t_max = 2 k PI]) the last frame shows the particle where the
    first one does, with the same velocity, acceleration and force: a
    repeated pass of the animation starts where the previous one ended. *)
Theorem last_frame_closes_the_loop (R omega t_max : float) (N : Z) (k : nat)
        (s : SampleSet) :
  (1 < N)%Z -> omega * t_max = 2 * INR k * PI ->
  SHM.sampler R omega t_max N = Ok s ->
  exists f0 f1,
    frame s 0 = Ok f0 /\ frame s (N - 1) = Ok f1 /\ ft f1 = t_max /\
    fx f1 = fx f0 /\ fy f1 = fy f0 /\ fz f1 = fz f0 /\ fd f1 = fd f0 /\
    fv f1 = fv f0 /\ fa f1 = fa f0 /\ fF f1 = fF f0.
Proof.
  intros HN Hk Hs.
  assert (Hd : IZR (N - 1) <> 0) by (apply not_0_IZR; lia).
  assert (Ht0 : nth (Z.to_nat 0) (t_full s) 0 = 0).
  { rewrite (sampler_time _ _ _ _ _ _ Hs HN) by lia. ring. }
  assert (Ht1 : nth (Z.to_nat (N - 1)) (t_full s) 0 = t_max).
  { rewrite (sampler_time _ _ _ _ _ _ Hs HN) by lia. now field. }
  do 2 eexists.
  split; [apply (sampler_frame _ _ _ _ _ _ Hs); lia|].
  split; [apply (sampler_frame _ _ _ _ _ _ Hs); lia|].
  rewrite Ht0, Ht1. cbn [closed_form ft fx fy fz fd fv fa fF].
  assert (Ec : cos (omega * t_max) = cos (omega * 0)).
  { rewrite Hk, Rmult_0_r.
    replace (2 * INR k * PI) with (0 + 2 * INR k * PI) by ring.
    apply cos_period. }
  assert (Es : sin (omega * t_max) = sin (omega * 0)).
  { rewrite Hk, Rmult_0_r.
    replace (2 * INR k * PI) with (0 + 2 * INR k * PI) by ring.
    apply sin_period. }
  rewrite Ec, Es. repeat split; reflexivity.
Qed.

Lemma last_frame_closes_the_loop_witness :
  exists s,
    (1 < 300)%Z /\ 2 * PI / 5 * 10 = 2 * INR 2 * PI /\
    SHM.sampler 1 (2 * PI / 5) 10 300 = Ok s /\
    exists f0 f1,
      frame s 0 = Ok f0 /\ frame s (300 - 1) = Ok f1 /\ ft f1 = 10 /\
      fx f1 = fx f0 /\ fy f1 = fy f0 /\ fz f1 = fz f0 /\ fd f1 = fd f0 /\
      fv f1 = fv f0 /\ fa f1 = fa f0 /\ fF f1 = fF f0.
Proof.
  assert (HN : (1 < 300)%Z) by lia.
  assert (Hk : 2 * PI / 5 * 10 = 2 * INR 2 * PI) by (simpl INR; field).
  eexists. split; [exact HN|]. split; [exact Hk|]. split; [reflexivity|].
  exact (last_frame_closes_the_loop 1 (2 * PI / 5) 10 300 2 _ HN Hk eq_refl).
Defined.

(** X9: with a time span of zero, or an angular velocity of zero, the
    sampler still returns, and every frame shows the particle standing at
    [(R, 0, 0)] with velocity 0. *)
Theorem degenerate_motion_stands_still (R omega t_max : float) (N : Z)
        (s : SampleSet) (i : Z) (f : Frame) :
  t_max = 0 \/ omega = 0 ->
  SHM.sampler R omega t_max N = Ok s -> frame s i = Ok f ->
  fx f = R /\ fy f = 0 /\ fz f = 0 /\ fd f = R /\ fv f = 0 /\
  fa f = - R * omega ^ 2 /\ fF f = - R * omega ^ 2.
Proof.
  intros Hdeg Hs Hf.
  destruct (sampler_frame_any _ _ _ _ _ _ _ Hs Hf) as (Ht & E).
  assert (Hu : omega * ft f = 0).
  { destruct Hdeg as [-> | ->]; [|ring].
    pose proof (sampler_time_bounds _ _ _ _ _ _ _ Hs (Rle_refl 0) Ht) as Hb.
    replace (ft f) with 0 by lra. ring. }
  rewrite E. cbn [closed_form fx fy fz fd fv fa fF ft].
  rewrite Hu, cos_0, sin_0. repeat split; ring.
Qed.

Lemma degenerate_motion_stands_still_witness :
  exists s f,
    (0 = 0 \/ 2 * PI / 5 = 0) /\
    SHM.sampler 1 (2 * PI / 5) 0 300 = Ok s /\ frame s 75 = Ok f /\
    fx f = 1 /\ fy f = 0 /\ fz f = 0 /\ fd f = 1 /\ fv f = 0 /\
    fa f = - 1 * (2 * PI / 5) ^ 2 /\ fF f = - 1 * (2 * PI / 5) ^ 2.
Proof.
  destruct (sampler_total 1 (2 * PI / 5) 0 300 ltac:(lia)) as [s Hs].
  pose proof (sampler_frame _ _ _ _ _ 75 Hs ltac:(lia)) as Hf.
  assert (Hdeg : 0 = 0 \/ 2 * PI / 5 = 0) by (left; reflexivity).
  exists s. eexists. split; [exact Hdeg|]. split; [exact Hs|].
  split; [exact Hf|].
  exact (degenerate_motion_stands_still 1 (2 * PI / 5) 0 300 s 75 _ Hdeg Hs Hf).
Defined.

(** ** The callback at and beyond the ends of the arrays *)

Lemma getitem_outside (a : Np.ndarray) (i : Z) :
  (i < - Z.of_nat (length a) \/ Z.of_nat (length a) <= i)%Z ->
  Np.getitem a i = Raise IndexError.
Proof.
  intros [H|H]; [|now apply getitem_out].
  unfold Np.getitem.
  now destruct (Z.ltb_spec i (- Z.of_nat (length a))); [|lia].
Qed.

Lemma getitem_wrap (a : Np.ndarray) (i : Z) :
  (- Z.of_nat (length a) <= i < 0)%Z ->
  Np.getitem a i = Np.getitem a (i + Z.of_nat (length a)).
Proof.
  intros H. rewrite getitem_neg by exact H. now rewrite getitem_in by lia.
Qed.

Lemma getslice_neg_stop (a : Np.ndarray) (k : Z) :
  (- Z.of_nat (length a) <= k < 0)%Z ->
  Np.getslice a 0 k = firstn (Z.to_nat (k + Z.of_nat (length a))) a.
Proof.
  intros Hk. unfold Np.getslice, Np.clamp.
  destruct (Z.ltb_spec k 0); [|lia].
  change (0 <? 0)%Z with false. cbv iota.
  replace (Z.max 0 (Z.min (Z.of_nat (length a)) 0)) with 0%Z by lia.
  replace (Z.max 0 (Z.min (Z.of_nat (length a)) (k + Z.of_nat (length a))) - 0)%Z
    with (k + Z.of_nat (length a))%Z by lia.
  reflexivity.
Qed.

Lemma update_outside_raises_aux (R omega t_max : float) (N : Z) (w : World)
      (i : Z) :
  SHM.sampler R omega t_max N = Ok (arrays w) ->
  (i < - N \/ N <= i)%Z ->
  SHM.update R omega i w = (Raise IndexError, w).
Proof.
  intros Hs Hi.
  destruct (sampler_lengths _ _ _ _ _ Hs) as (Hlen & _).
  assert (0 <= N)%Z.
  { destruct (Z.lt_ge_cases N 0) as [Hneg|]; [|assumption].
    unfold SHM.sampler in Hs. rewrite linspace_neg in Hs by exact Hneg.
    discriminate. }
  unfold SHM.update, bindM, index.
  now rewrite getitem_outside by (rewrite Hlen; lia).
Qed.

(** X10: in a world holding the sampler's [N] frames, a frame index that
    fits numpy's index type and lies outside [-N .. N-1] makes [update]
    raise [IndexError] at its first read, and the world is left exactly
    as it was: nothing is drawn. *)
Theorem update_outside_raises (R omega t_max : float) (N : Z) (w : World)
        (i : Z) :
  SHM.sampler R omega t_max N = Ok (arrays w) ->
  Np.fits_intp i -> (i < - N \/ N <= i)%Z ->
  SHM.update R omega i w = (Raise IndexError, w).
Proof. intros Hs _ Hi. exact (update_outside_raises_aux R omega t_max N w i Hs Hi). Qed.

Lemma update_outside_raises_witness :
  exists s,
    SHM.sampler 1 (2 * PI / 5) 10 300 = Ok (arrays (initial_world s)) /\
    Np.fits_intp 300 /\ (300 < - 300 \/ 300 <= 300)%Z /\
    SHM.update 1 (2 * PI / 5) 300 (initial_world s)
    = (Raise IndexError, initial_world s).
Proof.
  assert (Hf : Np.fits_intp 300) by (unfold Np.fits_intp; lia).
  assert (Hi : (300 < - 300 \/ 300 <= 300)%Z) by lia.
  eexists. split; [reflexivity|]. split; [exact Hf|]. split; [exact Hi|].
  exact (update_outside_raises 1 (2 * PI / 5) 10 300 (initial_world _) 300
           eq_refl Hf Hi).
Defined.

(** X11: a negative frame index [-N <= i < 0] does not raise: the
    particle, the radius line and the force arrow are drawn as for frame
    [i + N].  For [i < -1] the whole world is the one frame [i + N]
    leaves; for [i = -1] the four time plots are left empty instead of
    showing all [N] samples. *)
Theorem update_negative_index_wraps (R omega t_max : float) (N : Z)
        (w : World) (i : Z) :
  SHM.sampler R omega t_max N = Ok (arrays w) -> (- N <= i < 0)%Z ->
  exists w' w2,
    SHM.update R omega i w = (Ok tt, w') /\
    SHM.update R omega (i + N) w = (Ok tt, w2) /\
    point_3d w' = point_3d w2 /\
    line_center_to_point w' = line_center_to_point w2 /\
    proj_line w' = proj_line w2 /\
    force_quiver w' = force_quiver w2 /\
    ((i < -1)%Z -> w' = w2) /\
    (i = (-1)%Z ->
     line_f w' = mkLine2D [] [] /\ line_d w' = mkLine2D [] [] /\
     line_v w' = mkLine2D [] [] /\ line_a w' = mkLine2D [] [] /\
     length (xdata (line_d w2)) = Z.to_nat N).
Proof.
  intros Hs Hi.
  destruct (sampler_lengths _ _ _ _ _ Hs)
    as (Lt & Lx & Ly & Lz & Ld & Lv & La & LF).
  assert (Hj : (0 <= i + N < N)%Z) by lia.
  pose proof (sampler_frame _ _ _ _ _ _ Hs Hj) as Hf.
  apply frame_reads in Hf.
  destruct Hf as (Ht & Hx & Hy & Hz & Hd & Hv & Ha & _).
  assert (W : forall a, length a = Z.to_nat N ->
            Np.getitem a i = Np.getitem a (i + N)).
  { intros a Hlen. rewrite getitem_wrap by lia. f_equal. lia. }
  pose proof Ht as Ht'. pose proof Hx as Hx'. pose proof Hy as Hy'.
  pose proof Hz as Hz'. pose proof Hd as Hd'. pose proof Hv as Hv'.
  pose proof Ha as Ha'.
  rewrite <- W in Ht', Hx', Hy', Hz', Hd', Hv', Ha' by assumption.
  do 2 eexists.
  split; [exact (update_run R omega i w _ _ _ _ _ _ _
                   Ht' Hx' Hy' Hz' Hd' Hv' Ha')|].
  split; [exact (update_run R omega (i + N) w _ _ _ _ _ _ _
                   Ht Hx Hy Hz Hd Hv Ha)|].
  cbn [point_3d line_center_to_point proj_line force_quiver
       line_f line_d line_v line_a xdata].
  split; [reflexivity|]. split; [reflexivity|]. split; [reflexivity|].
  split; [reflexivity|]. split.
  - intros Hlt.
    assert (Sl : forall a, length a = Z.to_nat N ->
              Np.getslice a 0 (i + 1) = Np.getslice a 0 (i + N + 1)).
    { intros a Hlen. rewrite getslice_neg_stop by lia.
      rewrite getslice_prefix by lia. f_equal. lia. }
    now rewrite !Sl by assumption.
  - intros ->. change (-1 + 1)%Z with 0%Z.
    assert (E : forall a : Np.ndarray, Np.getslice a 0 0 = []).
    { intros a. rewrite getslice_prefix by lia. reflexivity. }
    rewrite !E. repeat split.
    rewrite getslice_prefix_length by lia. lia.
Qed.

Lemma update_negative_index_wraps_witness :
  exists s,
    SHM.sampler 1 (2 * PI / 5) 10 300 = Ok (arrays (initial_world s)) /\
    (- 300 <= -1 < 0)%Z /\
    exists w' w2,
      SHM.update 1 (2 * PI / 5) (-1) (initial_world s) = (Ok tt, w') /\
      SHM.update 1 (2 * PI / 5) (-1 + 300) (initial_world s) = (Ok tt, w2) /\
      point_3d w' = point_3d w2 /\
      line_center_to_point w' = line_center_to_point w2 /\
      proj_line w' = proj_line w2 /\
      force_quiver w' = force_quiver w2 /\
      ((-1 < -1)%Z -> w' = w2) /\
      ((-1)%Z = (-1)%Z ->
       line_f w' = mkLine2D [] [] /\ line_d w' = mkLine2D [] [] /\
       line_v w' = mkLine2D [] [] /\ line_a w' = mkLine2D [] [] /\
       length (xdata (line_d w2)) = Z.to_nat 300).
Proof.
  assert (Hi : (- 300 <= -1 < 0)%Z) by lia.
  eexists. split; [reflexivity|]. split; [exact Hi|].
  exact (update_negative_index_wraps 1 (2 * PI / 5) 10 300 (initial_world _)
           (-1) eq_refl Hi).
Defined.

(** ** What a frame of the range draws *)

(** The world [update] leaves at a frame of the range, with every artist
    spelled out from the frame's values. *)
Lemma update_draws (R omega t_max : float) (N : Z) (w : World) (i : Z) :
  SHM.sampler R omega t_max N = Ok (arrays w) -> (0 <= i < N)%Z ->
  exists f, frame (arrays w) i = Ok f /\
    f = closed_form R omega (ft f) /\
    SHM.update R omega i w
    = (Ok tt,
       let n := S (Z.to_nat i) in
       let s := arrays w in
       mkWorld s
         (mkQuiver (fx f) (fy f) (fz f)
            (- R * omega ^ 2 * cos (omega * ft f))
            (- R * omega ^ 2 * sin (omega * ft f)) 0
          :: match force_quiver w with
             | Some q => remove Quiver_eq_dec q (ax3d_quivers w)
             | None => ax3d_quivers w
             end)
         (mkLine3D [fx f] [fy f] [fz f])
         (mkLine3D [0; fx f] [0; fy f] [0; fz f])
         (mkLine3D [fx f; fx f] [0; 0] [0; fz f])
         (Some (mkQuiver (fx f) (fy f) (fz f)
                  (- R * omega ^ 2 * cos (omega * ft f))
                  (- R * omega ^ 2 * sin (omega * ft f)) 0))
         (mkLine2D (firstn n (t_full s)) (firstn n (F_full s)))
         (mkLine2D (firstn n (t_full s)) (firstn n (d_full s)))
         (mkLine2D (firstn n (t_full s)) (firstn n (v_full s)))
         (mkLine2D (firstn n (t_full s)) (firstn n (a_full s)))).
Proof.
  intros Hs Hi.
  destruct (sampler_lengths _ _ _ _ _ Hs)
    as (Lt & Lx & Ly & Lz & Ld & Lv & La & LF).
  pose proof (sampler_frame _ _ _ _ _ _ Hs Hi) as Hf.
  eexists. split; [exact Hf|]. split; [reflexivity|].
  apply frame_reads in Hf.
  destruct Hf as (Ht & Hx & Hy & Hz & Hd & Hv & Ha & _).
  rewrite (update_run R omega i w _ _ _ _ _ _ _ Ht Hx Hy Hz Hd Hv Ha).
  cbv zeta. rewrite !getslice_prefix by lia.
  replace (Z.to_nat (i + 1)) with (S (Z.to_nat i)) by lia.
  reflexivity.
Qed.

(** X12: at a frame [i] of the range each of the four time plots is
    handed exactly the first [i + 1] times and the first [i + 1] values
    of its array, so abscissas and ordinates have the same length, and
    the last point of each curve is the current frame. *)
Theorem time_plots_show_prefix (R omega t_max : float) (N : Z) (w : World)
        (i : Z) :
  SHM.sampler R omega t_max N = Ok (arrays w) -> (0 <= i < N)%Z ->
  let n := S (Z.to_nat i) in
  let s := arrays w in
  let w' := snd (SHM.update R omega i w) in
  (line_f w' = mkLine2D (firstn n (t_full s)) (firstn n (F_full s)) /\
   line_d w' = mkLine2D (firstn n (t_full s)) (firstn n (d_full s)) /\
   line_v w' = mkLine2D (firstn n (t_full s)) (firstn n (v_full s)) /\
   line_a w' = mkLine2D (firstn n (t_full s)) (firstn n (a_full s))) /\
  (length (xdata (line_f w')) = n /\ length (ydata (line_f w')) = n /\
   length (xdata (line_d w')) = n /\ length (ydata (line_d w')) = n /\
   length (xdata (line_v w')) = n /\ length (ydata (line_v w')) = n /\
   length (xdata (line_a w')) = n /\ length (ydata (line_a w')) = n) /\
  exists f, frame s i = Ok f /\
    nth (Z.to_nat i) (xdata (line_d w')) 0 = ft f /\
    nth (Z.to_nat i) (ydata (line_f w')) 0 = fF f /\
    nth (Z.to_nat i) (ydata (line_d w')) 0 = fd f /\
    nth (Z.to_nat i) (ydata (line_v w')) 0 = fv f /\
    nth (Z.to_nat i) (ydata (line_a w')) 0 = fa f.
Proof.
  intros Hs Hi. cbv zeta.
  destruct (sampler_lengths _ _ _ _ _ Hs)
    as (Lt & Lx & Ly & Lz & Ld & Lv & La & LF).
  destruct (update_draws R omega t_max N w i Hs Hi) as (f & Hf & _ & Hu).
  rewrite Hu. cbv zeta. cbn [snd line_f line_d line_v line_a xdata ydata].
  split; [repeat split|]. split.
  - rewrite !length_firstn. repeat split; lia.
  - exists f. split; [exact Hf|].
    apply frame_reads in Hf.
    destruct Hf as (Ht & _ & _ & _ & Hd & Hv & Ha & HF).
    rewrite getitem_in in Ht, Hd, Hv, Ha, HF by lia.
    injection Ht as Ht. injection Hd as Hd. injection Hv as Hv.
    injection Ha as Ha. injection HF as HF.
    rewrite !nth_firstn.
    destruct (Nat.ltb_spec (Z.to_nat i) (S (Z.to_nat i))); [|lia].
    repeat split; assumption.
Qed.

Lemma time_plots_show_prefix_witness :
  exists s,
    SHM.sampler 1 (2 * PI / 5) 10 300 = Ok (arrays (initial_world s)) /\
    (0 <= 75 < 300)%Z /\
    let n := S (Z.to_nat 75) in
    let w' := snd (SHM.update 1 (2 * PI / 5) 75 (initial_world s)) in
    (line_f w' = mkLine2D (firstn n (t_full s)) (firstn n (F_full s)) /\
     line_d w' = mkLine2D (firstn n (t_full s)) (firstn n (d_full s)) /\
     line_v w' = mkLine2D (firstn n (t_full s)) (firstn n (v_full s)) /\
     line_a w' = mkLine2D (firstn n (t_full s)) (firstn n (a_full s))) /\
    (length (xdata (line_f w')) = n /\ length (ydata (line_f w')) = n /\
     length (xdata (line_d w')) = n /\ length (ydata (line_d w')) = n /\
     length (xdata (line_v w')) = n /\ length (ydata (line_v w')) = n /\
     length (xdata (line_a w')) = n /\ length (ydata (line_a w')) = n) /\
    exists f, frame s 75 = Ok f /\
      nth (Z.to_nat 75) (xdata (line_d w')) 0 = ft f /\
      nth (Z.to_nat 75) (ydata (line_f w')) 0 = fF f /\
      nth (Z.to_nat 75) (ydata (line_d w')) 0 = fd f /\
      nth (Z.to_nat 75) (ydata (line_v w')) 0 = fv f /\
      nth (Z.to_nat 75) (ydata (line_a w')) 0 = fa f.
Proof.
  assert (Hi : (0 <= 75 < 300)%Z) by lia.
  eexists. split; [reflexivity|]. split; [exact Hi|].
  exact (time_plots_show_prefix 1 (2 * PI / 5) 10 300 (initial_world _) 75
           eq_refl Hi).
Defined.

(** X13: at a frame of the range the particle is drawn at the frame's
    [(x, y, 0)] and the radius line runs from the origin to it; the
    "projection" line is handed twice the same point [(x, 0, 0)], a
    segment of length zero. *)
Theorem projection_line_is_a_point (R omega t_max : float) (N : Z)
        (w : World) (i : Z) :
  SHM.sampler R omega t_max N = Ok (arrays w) -> (0 <= i < N)%Z ->
  exists f, frame (arrays w) i = Ok f /\
    let w' := snd (SHM.update R omega i w) in
    point_3d w' = mkLine3D [fx f] [fy f] [0] /\
    line_center_to_point w' = mkLine3D [0; fx f] [0; fy f] [0; 0] /\
    proj_line w' = mkLine3D [fx f; fx f] [0; 0] [0; 0].
Proof.
  intros Hs Hi.
  destruct (update_draws R omega t_max N w i Hs Hi) as (f & Hf & E & Hu).
  exists f. split; [exact Hf|]. rewrite Hu. cbv zeta.
  cbn [snd point_3d line_center_to_point proj_line].
  assert (Hz : fz f = 0) by (rewrite E; reflexivity).
  rewrite Hz. repeat split.
Qed.

Lemma projection_line_is_a_point_witness :
  exists s,
    SHM.sampler 1 (2 * PI / 5) 10 300 = Ok (arrays (initial_world s)) /\
    (0 <= 75 < 300)%Z /\
    exists f, frame (arrays (initial_world s)) 75 = Ok f /\
      let w' := snd (SHM.update 1 (2 * PI / 5) 75 (initial_world s)) in
      point_3d w' = mkLine3D [fx f] [fy f] [0] /\
      line_center_to_point w' = mkLine3D [0; fx f] [0; fy f] [0; 0] /\
      proj_line w' = mkLine3D [fx f; fx f] [0; 0] [0; 0].
Proof.
  assert (Hi : (0 <= 75 < 300)%Z) by lia.
  eexists. split; [reflexivity|]. split; [exact Hi|].
  exact (projection_line_is_a_point 1 (2 * PI / 5) 10 300 (initial_world _) 75
           eq_refl Hi).
Defined.

(** X14: at a frame of the range the force arrow starts at the particle,
    its components are the position scaled by [- omega^2], so it points
    at the centre of the circle, and its squared length is
    [(R omega^2)^2] in every frame. *)
Theorem force_arrow_is_centripetal (R omega t_max : float) (N : Z)
        (w : World) (i : Z) :
  SHM.sampler R omega t_max N = Ok (arrays w) -> (0 <= i < N)%Z ->
  exists f q, frame (arrays w) i = Ok f /\
    force_quiver (snd (SHM.update R omega i w)) = Some q /\
    (qx q = fx f /\ qy q = fy f /\ qz q = fz f) /\
    (qu q = - omega ^ 2 * fx f /\ qv q = - omega ^ 2 * fy f /\
     qw q = - omega ^ 2 * fz f) /\
    (qu q) ^ 2 + (qv q) ^ 2 + (qw q) ^ 2 = (R * omega ^ 2) ^ 2.
Proof.
  intros Hs Hi.
  destruct (update_draws R omega t_max N w i Hs Hi) as (f & Hf & E & Hu).
  exists f. eexists. split; [exact Hf|]. rewrite Hu. cbv zeta.
  cbn [snd force_quiver]. split; [reflexivity|].
  cbn [qx qy qz qu qv qw]. split; [repeat split|].
  set (u := omega * ft f).
  assert (Hx : fx f = R * cos u) by (rewrite E; reflexivity).
  assert (Hy : fy f = R * sin u) by (rewrite E; reflexivity).
  assert (Hz : fz f = 0) by (rewrite E; reflexivity).
  rewrite Hx, Hy, Hz. split; [repeat split; ring|].
  pose proof (sin2_cos2 u) as S2. unfold Rsqr in S2.
  replace ((- R * omega ^ 2 * cos u) ^ 2 + (- R * omega ^ 2 * sin u) ^ 2 + 0 ^ 2)
    with ((R * omega ^ 2) ^ 2 * (sin u * sin u + cos u * cos u)) by ring.
  rewrite S2. ring.
Qed.

Lemma force_arrow_is_centripetal_witness :
  exists s,
    SHM.sampler 1 (2 * PI / 5) 10 300 = Ok (arrays (initial_world s)) /\
    (0 <= 75 < 300)%Z /\
    exists f q, frame (arrays (initial_world s)) 75 = Ok f /\
      force_quiver (snd (SHM.update 1 (2 * PI / 5) 75 (initial_world s)))
      = Some q /\
      (qx q = fx f /\ qy q = fy f /\ qz q = fz f) /\
      (qu q = - (2 * PI / 5) ^ 2 * fx f /\ qv q = - (2 * PI / 5) ^ 2 * fy f /\
       qw q = - (2 * PI / 5) ^ 2 * fz f) /\
      (qu q) ^ 2 + (qv q) ^ 2 + (qw q) ^ 2 = (1 * (2 * PI / 5) ^ 2) ^ 2.
Proof.
  assert (Hi : (0 <= 75 < 300)%Z) by lia.
  eexists. split; [reflexivity|]. split; [exact Hi|].
  exact (force_arrow_is_centripetal 1 (2 * PI / 5) 10 300 (initial_world _) 75
           eq_refl Hi).
Defined.

(** ** Passes of the animation *)

(** With at most the current arrow on the axes, the world a frame of the
    range leaves depends on the arrays and on the frame index only. *)
Lemma update_same_picture (R omega t_max : float) (N : Z) (w1 w2 : World)
      (i : Z) :
  SHM.sampler R omega t_max N = Ok (arrays w1) -> arrays w2 = arrays w1 ->
  one_arrow w1 -> one_arrow w2 -> (0 <= i < N)%Z ->
  SHM.update R omega i w1 = SHM.update R omega i w2.
Proof.
  intros Hs E H1 H2 Hi.
  assert (Hs2 : SHM.sampler R omega t_max N = Ok (arrays w2)) by now rewrite E.
  destruct (update_draws R omega t_max N w1 i Hs Hi) as (f1 & Hf1 & _ & Hu1).
  destruct (update_draws R omega t_max N w2 i Hs2 Hi) as (f2 & Hf2 & _ & Hu2).
  rewrite E, Hf1 in Hf2. injection Hf2 as <-.
  rewrite Hu1, Hu2, E. cbv zeta. unfold one_arrow in H1, H2.
  rewrite H1, H2.
  destruct (force_quiver w1), (force_quiver w2);
    rewrite ?remove_single; reflexivity.
Qed.

Lemma animate_app (R omega : float) (l1 l2 : list Z) (w : World) :
  fst (SHM.animate R omega l1 w) = Ok tt ->
  SHM.animate R omega (l1 ++ l2) w
  = SHM.animate R omega l2 (snd (SHM.animate R omega l1 w)).
Proof.
  revert w. induction l1 as [|i l1 IH]; intros w H; [reflexivity|].
  cbn [app SHM.animate] in *. unfold bindM in *.
  destruct (SHM.update R omega i w) as [[[]|e] w1]; [|discriminate].
  now apply IH.
Qed.

Lemma animate_single (R omega : float) (j : Z) (w : World) :
  SHM.animate R omega [j] w = SHM.update R omega j w.
Proof.
  cbn [SHM.animate]. unfold bindM, ret.
  now destruct (SHM.update R omega j w) as [[[]|e] w1].
Qed.

Lemma animate_ends_on_last (R omega t_max : float) (N : Z)
      (frames : list Z) (j : Z) :
  (forall k, In k (frames ++ [j]) -> (0 <= k < N)%Z) ->
  forall w, SHM.sampler R omega t_max N = Ok (arrays w) -> one_arrow w ->
  SHM.animate R omega (frames ++ [j]) w = SHM.update R omega j w.
Proof.
  intros Hin w Hs H1.
  assert (Hfr : forall k, In k frames -> (0 <= k < N)%Z)
    by (intros k Hk; apply Hin, in_or_app; now left).
  assert (Hj : (0 <= j < N)%Z)
    by (apply Hin, in_or_app; right; now left).
  destruct (animate_in_range R omega t_max N frames Hfr w Hs) as (Hok & Hinv).
  rewrite animate_app by exact Hok. rewrite animate_single.
  symmetry. apply (update_same_picture R omega t_max N); try assumption.
  - apply animate_reads_only.
  - now apply Hinv.
Qed.

(** X15: a frame can be redrawn from any earlier state of the picture:
    in two worlds that hold the same sampled arrays and at most the
    current arrow, [update] at a frame of the range leaves the same world. *)
Theorem picture_depends_on_frame_only (R omega t_max : float) (N : Z)
        (w1 w2 : World) (i : Z) :
  SHM.sampler R omega t_max N = Ok (arrays w1) -> arrays w2 = arrays w1 ->
  one_arrow w1 -> one_arrow w2 -> (0 <= i < N)%Z ->
  SHM.update R omega i w1 = SHM.update R omega i w2.
Proof. apply update_same_picture. Qed.

Lemma picture_depends_on_frame_only_witness :
  exists s w1,
    SHM.sampler 1 (2 * PI / 5) 10 300 = Ok (arrays w1) /\
    arrays (initial_world s) = arrays w1 /\
    one_arrow w1 /\ one_arrow (initial_world s) /\ (0 <= 75 < 300)%Z /\
    SHM.update 1 (2 * PI / 5) 75 w1
    = SHM.update 1 (2 * PI / 5) 75 (initial_world s).
Proof.
  assert (Hi : (0 <= 75 < 300)%Z) by lia.
  assert (Hj : (0 <= 12 < 300)%Z) by lia.
  destruct (sampler_total 1 (2 * PI / 5) 10 300 ltac:(lia)) as [s Hs].
  destruct (update_in_range 1 (2 * PI / 5) 10 300 (initial_world s) 12 Hs Hj)
    as (w1 & Hu & _ & H1).
  assert (E : arrays w1 = s).
  { pose proof (update_reads_only 1 (2 * PI / 5) 12 (initial_world s)) as A.
    rewrite Hu in A. exact A. }
  assert (Hs1 : SHM.sampler 1 (2 * PI / 5) 10 300 = Ok (arrays w1))
    by (rewrite E; exact Hs).
  assert (E2 : arrays (initial_world s) = arrays w1) by (symmetry; exact E).
  assert (O1 : one_arrow w1) by (apply H1; reflexivity).
  assert (O2 : one_arrow (initial_world s)) by reflexivity.
  exists s, w1. split; [exact Hs1|]. split; [exact E2|]. split; [exact O1|].
  split; [exact O2|]. split; [exact Hi|].
  exact (picture_depends_on_frame_only 1 (2 * PI / 5) 10 300 w1
           (initial_world s) 75 Hs1 E2 O1 O2 Hi).
Defined.

(** X16: a pass over frames of the range ends in the world its last frame
    alone would have drawn: nothing of the earlier frames is left in the
    picture. *)
Theorem pass_ends_on_last_frame (R omega t_max : float) (N : Z)
        (frames : list Z) (j : Z) (w : World) :
  (forall k, In k (frames ++ [j]) -> (0 <= k < N)%Z) ->
  SHM.sampler R omega t_max N = Ok (arrays w) -> one_arrow w ->
  SHM.animate R omega (frames ++ [j]) w = SHM.update R omega j w.
Proof. intros Hin Hs H1. now apply (animate_ends_on_last R omega t_max N). Qed.

Lemma pass_ends_on_last_frame_witness :
  exists s,
    (forall k : Z, In k ([3; 1; 4] ++ [2])%Z -> (0 <= k < 300)%Z) /\
    SHM.sampler 1 (2 * PI / 5) 10 300 = Ok (arrays (initial_world s)) /\
    one_arrow (initial_world s) /\
    SHM.animate 1 (2 * PI / 5) ([3; 1; 4] ++ [2])%Z (initial_world s)
    = SHM.update 1 (2 * PI / 5) 2 (initial_world s).
Proof.
  assert (Hin : forall k : Z, In k ([3; 1; 4] ++ [2])%Z -> (0 <= k < 300)%Z).
  { simpl. intros k Hk. lia. }
  eexists. split; [exact Hin|]. split; [reflexivity|]. split; [reflexivity|].
  exact (pass_ends_on_last_frame 1 (2 * PI / 5) 10 300 [3; 1; 4]%Z 2
           (initial_world _) Hin eq_refl eq_refl).
Defined.

(** X17: arrows do not pile up.  From the world of the initial plots,
    after a pass over any frames of the range the 3D axes hold no arrow
    if no frame was drawn and exactly one otherwise, the one
    [force_quiver] points at. *)
Theorem at_most_one_arrow (R omega t_max : float) (N : Z) (s : SampleSet)
        (frames : list Z) :
  SHM.sampler R omega t_max N = Ok s ->
  (forall k, In k frames -> (0 <= k < N)%Z) ->
  let w' := snd (SHM.animate R omega frames (initial_world s)) in
  one_arrow w' /\
  length (ax3d_quivers w') = Nat.min 1 (length frames).
Proof.
  intros Hs Hin. cbv zeta.
  assert (Hs0 : SHM.sampler R omega t_max N = Ok (arrays (initial_world s)))
    by exact Hs.
  destruct (animate_in_range R omega t_max N frames Hin (initial_world s) Hs0)
    as (_ & Hinv).
  split; [apply Hinv; reflexivity|].
  destruct frames as [|i rest]; [reflexivity|].
  change (Nat.min 1 (length (i :: rest))) with 1%nat.
  assert (Hne : i :: rest <> []) by discriminate.
  destruct (exists_last Hne) as (l & j & E). rewrite E in *.
  rewrite (animate_ends_on_last R omega t_max N l j Hin _ Hs0) by reflexivity.
  destruct (update_draws R omega t_max N (initial_world s) j Hs0)
    as (f & _ & _ & Hu).
  { apply Hin, in_or_app. right. now left. }
  rewrite Hu. reflexivity.
Qed.

Lemma at_most_one_arrow_witness :
  exists s,
    SHM.sampler 1 (2 * PI / 5) 10 300 = Ok s /\
    (forall k : Z, In k [3; 1; 4]%Z -> (0 <= k < 300)%Z) /\
    let w' := snd (SHM.animate 1 (2 * PI / 5) [3; 1; 4]%Z (initial_world s)) in
    one_arrow w' /\
    length (ax3d_quivers w') = Nat.min 1 (length [3; 1; 4]%Z).
Proof.
  assert (Hin : forall k : Z, In k [3; 1; 4]%Z -> (0 <= k < 300)%Z).
  { simpl. intros k Hk. lia. }
  eexists. split; [reflexivity|]. split; [exact Hin|].
  exact (at_most_one_arrow 1 (2 * PI / 5) 10 300 _ [3; 1; 4]%Z eq_refl Hin).
Defined.

Lemma range_split (n m : Z) :
  (0 <= n < m)%Z ->
  exists rest, range m = range n ++ n :: rest.
Proof.
  intros H. unfold range.
  replace (Z.to_nat m) with (Z.to_nat n + S (Z.to_nat (m - n - 1)))%nat by lia.
  rewrite seq_app, map_app. simpl seq. simpl map.
  rewrite Z2Nat.id by lia. eauto.
Qed.

(** X18: the frame count handed to the animation is the largest that
    works.  For whatever parameters the sampler accepts, the pass over
    [range(n_frames)] from the initial plots raises nothing, and a pass
    over any longer range raises [IndexError]. *)
Theorem frame_count_is_tight (R omega t_max : float) (N : Z) (s : SampleSet) :
  SHM.sampler R omega t_max N = Ok s ->
  fst (SHM.animate R omega (range N) (initial_world s)) = Ok tt /\
  forall M, (N < M)%Z ->
    fst (SHM.animate R omega (range M) (initial_world s)) = Raise IndexError.
Proof.
  intros Hs.
  assert (Hs0 : SHM.sampler R omega t_max N = Ok (arrays (initial_world s)))
    by exact Hs.
  assert (HN : (0 <= N)%Z).
  { destruct (Z.lt_ge_cases N 0) as [Hneg|]; [|assumption].
    unfold SHM.sampler in Hs. rewrite linspace_neg in Hs by exact Hneg.
    discriminate. }
  destruct (animate_in_range R omega t_max N (range N) (range_bounds N)
              (initial_world s) Hs0) as (Hok & _).
  split; [exact Hok|]. intros M HM.
  destruct (range_split N M ltac:(lia)) as (rest & ->).
  rewrite animate_app by exact Hok.
  cbn [SHM.animate]. unfold bindM.
  rewrite (update_outside_raises_aux R omega t_max N); [reflexivity| |lia].
  now rewrite animate_reads_only.
Qed.

Lemma frame_count_is_tight_witness :
  exists s,
    SHM.sampler 1 (2 * PI / 5) 10 300 = Ok s /\
    fst (SHM.animate 1 (2 * PI / 5) (range 300) (initial_world s)) = Ok tt /\
    forall M, (300 < M)%Z ->
      fst (SHM.animate 1 (2 * PI / 5) (range M) (initial_world s))
      = Raise IndexError.
Proof.
  eexists. split; [reflexivity|].
  exact (frame_count_is_tight 1 (2 * PI / 5) 10 300 _ eq_refl).
Defined.

(** ** The callback of the streamlit script *)

(** X19: the callback of the streamlit script does what the one of the
    desktop script does, on every frame index and in every world, also
    when it raises; so a pass rendered into the video draws the frames the
    desktop window shows. *)
Theorem callbacks_agree (R omega : float) :
  (forall (frame : Z) (w : World),
     SHMstreamlit.update R omega frame w = SHM.update R omega frame w) /\
  (forall (frames : list Z) (w : World),
     SHMstreamlit.animate R omega frames w = SHM.animate R omega frames w).
Proof.
  assert (U : forall frame w,
            SHMstreamlit.update R omega frame w = SHM.update R omega frame w).
  { intros frame w. unfold SHMstreamlit.update, SHM.update. reflexivity. }
  split; [exact U|].
  induction frames as [|frame rest IH]; intros w; [reflexivity|].
  cbn [SHMstreamlit.animate SHM.animate]. unfold bindM.
  rewrite U. destruct (SHM.update R omega frame w) as [[[]|e] w1];
    [apply IH|reflexivity].
Qed.

(** ** Simulated time against display time *)

(** X20: with the frame count [t_max * fps] of the scripts, two
    consecutive frames are further apart in simulated time than the
    [1000 / fps] milliseconds the animation waits between them: the grid
    has [t_max * fps - 1] steps over [t_max] seconds, not [t_max * fps]. *)
Theorem frames_outpace_display (R omega : float) (t_max fps : Z)
        (s : SampleSet) (i : Z) :
  (0 < fps)%Z -> (1 < t_max * fps)%Z ->
  SHM.sampler R omega (IZR t_max) (t_max * fps) = Ok s ->
  (0 <= i < t_max * fps - 1)%Z ->
  exists t0 t1,
    Np.getitem (t_full s) i = Ok t0 /\
    Np.getitem (t_full s) (i + 1) = Ok t1 /\
    SHM.interval fps < 1000 * (t1 - t0).
Proof.
  intros Hfps HN Hs Hi.
  assert (Ht : (0 < t_max)%Z) by nia.
  do 2 eexists.
  split; [apply (sampler_getitem_time _ _ _ _ _ _ Hs); lia|].
  split; [apply (sampler_getitem_time _ _ _ _ _ _ Hs); lia|].
  unfold SHM.interval. rewrite plus_IZR, minus_IZR, mult_IZR.
  apply IZR_lt in Hfps, Ht, HN. rewrite mult_IZR in HN.
  set (F := IZR fps) in *. set (T := IZR t_max) in *.
  assert (HD : 0 < T * F - 1) by lra.
  replace (1000 * ((IZR i + 1) * (T / (T * F - 1)) - IZR i * (T / (T * F - 1))))
    with (1000 / F + 1000 / (F * (T * F - 1))) by (field; lra).
  assert (0 < 1000 / (F * (T * F - 1))).
  { apply Rdiv_lt_0_compat; [lra|]. now apply Rmult_lt_0_compat. }
  lra.
Qed.

Lemma frames_outpace_display_witness :
  exists s,
    (0 < 30)%Z /\ (1 < 10 * 30)%Z /\
    SHM.sampler 1 (2 * PI / 5) (IZR 10) (10 * 30) = Ok s /\
    (0 <= 0 < 10 * 30 - 1)%Z /\
    exists t0 t1,
      Np.getitem (t_full s) 0 = Ok t0 /\
      Np.getitem (t_full s) (0 + 1) = Ok t1 /\
      SHM.interval 30 < 1000 * (t1 - t0).
Proof.
  assert (Hfps : (0 < 30)%Z) by lia.
  assert (HN : (1 < 10 * 30)%Z) by lia.
  assert (Hi : (0 <= 0 < 10 * 30 - 1)%Z) by lia.
  eexists. split; [exact Hfps|]. split; [exact HN|]. split; [reflexivity|].
  split; [exact Hi|].
  exact (frames_outpace_display 1 (2 * PI / 5) 10 30 _ 0 Hfps HN eq_refl Hi).
Defined.

(** ** The one exception of the float range *)



